(** * Validators of [ietf/utils/validators.py]

    A shallow embedding of the field and upload validators of the
    datatracker, and the properties its specification states about them.

    Python values are modelled as follows: a [str] or [bytes] object is a
    [string] (a sequence of characters with codes 0..255), an integer is a
    [Z], a list of strings is a [list string].  A call that raises is a
    value [Raises e]; a call that returns is [Returns a]. *)

From Stdlib Require Import String Ascii List ZArith Lia Bool Arith DecimalString.
Import ListNotations.

Local Open Scope list_scope.
Local Open Scope string_scope.
Local Open Scope nat_scope.

Set Implicit Arguments.

(** ** Exceptions and results *)

Module Py.

(** The exception classes that can leave the validators: django's
    [ValidationError], the [ValueError] that [urllib.parse.urlparse]
    raises on unbalanced brackets, and the [ParserError] of lxml, which
    the parser behind [PyQuery] raises on content without an element. *)
Inductive exn : Type :=
| ValidationError (message : string)
| ValueError (message : string)
| ParserError (message : string).

Inductive result (A : Type) : Type :=
| Returns (a : A)
| Raises (e : exn).

Arguments Returns {A} a.
Arguments Raises {A} e.

Definition bind {A B : Type} (m : result A) (k : A -> result B) : result B :=
  match m with
  | Returns a => k a
  | Raises e => Raises e
  end.

(** [raise_if c e]: the statement [if c: raise e]. *)
Definition raise_if (c : bool) (e : exn) : result unit :=
  if c then Raises e else Returns tt.

(** A validator passes when it returns; it fails when it raises
    [ValidationError]. *)
Definition passes {A : Type} (m : result A) : Prop :=
  exists a, m = Returns a.

Definition fails_with {A : Type} (m : result A) (msg : string) : Prop :=
  m = Raises (ValidationError msg).

Definition fails {A : Type} (m : result A) : Prop :=
  exists msg, fails_with m msg.

End Py.

Import Py.

Notation "x <- m ;; k" := (bind m (fun x => k))
  (at level 61, m at next level, right associativity).
Notation "m ;;; k" := (bind m (fun _ => k))
  (at level 61, right associativity).

(** ** Characters and strings *)

Definition LF : ascii := ascii_of_nat 10.
Definition SPACE : ascii := ascii_of_nat 32.

(** [ord c]. *)
Definition ord (c : ascii) : nat := nat_of_ascii c.

(** A control character is one with code below 0x20. *)
Definition is_control (c : ascii) : bool := ord c <? 32.

Fixpoint chars (s : string) : list ascii :=
  match s with
  | EmptyString => []
  | String c s' => c :: chars s'
  end.

(** [has_control s]: some character of [s] is a control character. *)
Definition has_control (s : string) : bool := existsb is_control (chars s).

(** [startswith p s]: [s.startswith(p)]. *)
Fixpoint startswith (p s : string) : bool :=
  match p, s with
  | EmptyString, _ => true
  | String a p', String b s' => Ascii.eqb a b && startswith p' s'
  | String _ _, EmptyString => false
  end.

(** [contains sub s]: the Python test [sub in s] on strings. *)
Fixpoint contains (sub s : string) : bool :=
  startswith sub s ||
  match s with
  | EmptyString => false
  | String _ s' => contains sub s'
  end.

(** [Substring sub s]: [sub] occurs in [s]. *)
Definition Substring (sub s : string) : Prop :=
  exists pre post, s = pre ++ sub ++ post.

(** [c in s] for a character. *)
Definition mem_char (c : ascii) (s : string) : bool :=
  existsb (Ascii.eqb c) (chars s).

(** [x in l] for a list of strings. *)
Definition mem_string (x : string) (l : list string) : bool :=
  existsb (String.eqb x) l.

(** [sep.join(l)]. *)
Fixpoint join (sep : string) (l : list string) : string :=
  match l with
  | [] => ""
  | [x] => x
  | x :: l' => x ++ sep ++ join sep l'
  end.

(** Lower-casing of one character and of a string ([str.lower]) for the
    characters with codes 0..255: the letters A-Z, and the accented capital
    letters 0xC0-0xDE but for the multiplication sign 0xD7, are moved 32
    up. *)
Definition lower_char (c : ascii) : ascii :=
  let n := ord c in
  if ((65 <=? n) && (n <=? 90))
     || ((192 <=? n) && (n <=? 222) && negb (n =? 215))
  then ascii_of_nat (n + 32)
  else c.

Fixpoint lower (s : string) : string :=
  match s with
  | EmptyString => EmptyString
  | String c s' => String (lower_char c) (lower s')
  end.

(** ** Regular expressions: the fragment of [re] that the module uses

    A pattern is the list of operations that [sre_parse] produces.  Only the
    operations of the two patterns of the module are needed, [^[^\x00-\x1f]*$]
    and [(?m)^virtual\s]: the anchors, a literal, a character set, and the
    greedy repetition of a character set. *)

Module Sre.

Inductive set_item : Type :=
| RANGE (lo hi : ascii)        (* lo-hi *)
| CATEGORY_SPACE.              (* \s, on bytes: [ \t\n\r\f\v] *)

Inductive op : Type :=
| AT_BEGINNING                                        (* ^ *)
| AT_BEGINNING_LINE                                   (* ^ under (?m) *)
| AT_END                                              (* $ *)
| LITERAL (c : ascii)
| IN (negate : bool) (items : list set_item)          (* [...] *)
| MAX_REPEAT_IN (negate : bool) (items : list set_item).   (* [...]* *)

Definition pattern := list op.

Definition is_space (c : ascii) : bool :=
  (ord c =? 32) || ((9 <=? ord c) && (ord c <=? 13)).

Definition item_matches (i : set_item) (c : ascii) : bool :=
  match i with
  | RANGE lo hi => (ord lo <=? ord c) && (ord c <=? ord hi)
  | CATEGORY_SPACE => is_space c
  end.

Definition in_set (negate : bool) (items : list set_item) (c : ascii) : bool :=
  xorb negate (existsb (fun i => item_matches i c) items).

(** Without the MULTILINE flag, [$] matches at the end of the subject and
    also just before a line feed that is the last character of the
    subject. *)
Definition at_end (rest : string) : bool :=
  match rest with
  | EmptyString => true
  | String c EmptyString => Ascii.eqb c LF
  | String _ (String _ _) => false
  end.

(** [^] matches at the beginning of the subject; under MULTILINE it also
    matches just after a line feed.  [prev] is the character before the
    current position, [None] at the beginning of the subject. *)
Definition at_beginning (prev : option ascii) : bool :=
  match prev with
  | None => true
  | Some _ => false
  end.

Definition at_beginning_line (prev : option ascii) : bool :=
  match prev with
  | None => true
  | Some c => Ascii.eqb c LF
  end.

(** [matches p prev rest]: the pattern matches at the position of the
    subject where [rest] is what remains and [prev] is the character
    before. *)
Fixpoint matches (p : pattern) (prev : option ascii) (rest : string) : bool :=
  match p with
  | [] => true
  | AT_BEGINNING :: p' => at_beginning prev && matches p' prev rest
  | AT_BEGINNING_LINE :: p' => at_beginning_line prev && matches p' prev rest
  | AT_END :: p' => at_end rest && matches p' prev rest
  | LITERAL a :: p' =>
      match rest with
      | String c rest' => Ascii.eqb a c && matches p' (Some c) rest'
      | EmptyString => false
      end
  | IN negate items :: p' =>
      match rest with
      | String c rest' => in_set negate items c && matches p' (Some c) rest'
      | EmptyString => false
      end
  | MAX_REPEAT_IN negate items :: p' =>
      (fix repeat (prev : option ascii) (rest : string) : bool :=
         match rest with
         | String c rest' =>
             (in_set negate items c && repeat (Some c) rest')
             || matches p' prev rest
         | EmptyString => matches p' prev rest
         end) prev rest
  end.

(** [search_from p prev rest]: the match is tried at every position from
    the current one on. *)
Fixpoint search_from (p : pattern) (prev : option ascii) (rest : string) : bool :=
  matches p prev rest ||
  match rest with
  | String c rest' => search_from p (Some c) rest'
  | EmptyString => false
  end.

(** [re.compile(p).search(s)], as a truth value. *)
Definition search (p : pattern) (s : string) : bool := search_from p None s.

(** The literals of a word, one after the other. *)
Fixpoint literals (w : string) : pattern :=
  match w with
  | EmptyString => []
  | String c w' => LITERAL c :: literals w'
  end.

End Sre.

(** ** django's [RegexValidator] *)

Record RegexValidator : Type := {
  regex : Sre.pattern;
  message : string;
  inverse_match : bool
}.

(** [RegexValidator.__call__]. *)
Definition RegexValidator_call (v : RegexValidator) (value : string)
  : result unit :=
  let regex_matches := Sre.search (regex v) value in
  let invalid_input :=
    if inverse_match v then regex_matches else negb regex_matches in
  raise_if invalid_input (ValidationError (message v)).

(** The pattern ["^[^\x00-\x1f]*$"]: the anchor [^], then what follows
    it. *)
Definition no_control_chars_tail : Sre.pattern :=
  [ Sre.MAX_REPEAT_IN true [Sre.RANGE (ascii_of_nat 0) (ascii_of_nat 31)];
    Sre.AT_END ].

Definition no_control_chars_regex : Sre.pattern :=
  Sre.AT_BEGINNING :: no_control_chars_tail.

Definition no_control_chars_message : string :=
  "Please enter a string without control characters.".

Definition validate_no_control_chars : string -> result unit :=
  RegexValidator_call
    {| regex := no_control_chars_regex;
       message := no_control_chars_message;
       inverse_match := false |}.

(** ** [RegexStringValidator] *)

Definition DQUOTE : string := String (ascii_of_nat 34) EmptyString.

(** What [re.compile(value)] does: it returns a compiled pattern, or it
    raises an exception [e], of which only [str(e)] is used. *)
Inductive compile_outcome : Type :=
| Compiled
| CompileError (e : string).

Definition invalid_regex_message (value e : string) : string :=
  "Please enter a valid regular expression.  "
  ++ "Got an error when trying to compile this: "
  ++ DQUOTE ++ value ++ DQUOTE ++ " : " ++ DQUOTE ++ e ++ DQUOTE.

Definition dash_star_message : string :=
  "Did you really mean that?  The regular expression "
  ++ "contains " ++ DQUOTE ++ "-*" ++ DQUOTE
  ++ " which will match zero or more dashes.  "
  ++ "Maybe you meant to write " ++ DQUOTE ++ "-.*" ++ DQUOTE
  ++ "?  If you actually meant " ++ DQUOTE ++ "-*" ++ DQUOTE ++ ", "
  ++ "you can use " ++ DQUOTE ++ "[-]*" ++ DQUOTE
  ++ " instead to get past this error.".

Section RegexString.

(** The regular-expression compiler of the host, [re.compile]. *)
Variable re_compile : string -> compile_outcome.

(** [RegexStringValidator.__call__]. *)
Definition RegexStringValidator_call (value : string) : result unit :=
  match re_compile value with
  | CompileError e => Raises (ValidationError (invalid_regex_message value e))
  | Compiled =>
      raise_if (contains "-*" value) (ValidationError dash_star_message)
  end.

End RegexString.

(** Objects, as far as [isinstance] looks at them: an object has a class,
    and a class has a method resolution order, the list of the classes it
    is or inherits from. *)
Inductive pyclass : Type :=
| RegexStringValidator
| OtherClass (name : string).

Definition pyclass_eqb (a b : pyclass) : bool :=
  match a, b with
  | RegexStringValidator, RegexStringValidator => true
  | OtherClass x, OtherClass y => String.eqb x y
  | _, _ => false
  end.

Record pyobject : Type := { mro : list pyclass }.

Definition isinstance (o : pyobject) (c : pyclass) : bool :=
  existsb (pyclass_eqb c) (mro o).

(** [RegexStringValidator.__eq__] and [__ne__]. *)
Definition RegexStringValidator_eq (self other : pyobject) : bool :=
  isinstance other RegexStringValidator.

Definition RegexStringValidator_ne (self other : pyobject) : bool :=
  negb (RegexStringValidator_eq self other).

(** [RegexStringValidator()]: a fresh instance. *)
Definition RegexStringValidator_new : pyobject :=
  {| mro := [RegexStringValidator; OtherClass "object"] |}.

(** ** Uploaded files *)

Module File.

(** An uploaded file: its name, its size in bytes, its content and the
    position of the next read. *)
Record t : Type := {
  name : string;
  _size : Z;
  data : string;
  pos : nat
}.

(** [s[n:]]. *)
Fixpoint skip (n : nat) (s : string) : string :=
  match n, s with
  | S n', String _ s' => skip n' s'
  | _, _ => s
  end.

(** [file.open()] on an open file seeks to the beginning. *)
Definition open (f : t) : t :=
  {| name := name f; _size := _size f; data := data f; pos := 0 |}.

(** [file.read()]: the content from the position on; the position moves to
    the end. *)
Definition read (f : t) : string * t :=
  (skip (pos f) (data f),
   {| name := name f; _size := _size f; data := data f;
      pos := Nat.max (pos f) (String.length (data f)) |}).

End File.

(** ** [validate_file_size] and the rendering of sizes *)

Module FileSize.

Local Open Scope Z_scope.

Inductive size_unit : Type := Bytes | KB | MB | GB | TB.

Definition unit_bytes (u : size_unit) : Z :=
  match u with
  | Bytes => 1
  | KB => 2 ^ 10
  | MB => 2 ^ 20
  | GB => 2 ^ 30
  | TB => 2 ^ 40
  end.

Definition unit_name (u : size_unit) : string :=
  match u with
  | Bytes => "bytes"
  | KB => "KB"
  | MB => "MB"
  | GB => "GB"
  | TB => "TB"
  end.

(** The largest unit in which [n] bytes are at least 1. *)
Definition largest_unit (n : Z) : size_unit :=
  if n <? 2 ^ 10 then Bytes
  else if n <? 2 ^ 20 then KB
  else if n <? 2 ^ 30 then MB
  else if n <? 2 ^ 40 then GB
  else TB.

(** [n / u] in tenths, rounded to the nearest tenth, a tie to the even
    one. *)
Definition round_tenths (n u : Z) : Z :=
  let q := (10 * n) / u in
  let r := (10 * n) mod u in
  if 2 * r <? u then q
  else if u <? 2 * r then q + 1
  else if Z.even q then q else q + 1.

Definition decimal (n : Z) : string :=
  NilEmpty.string_of_uint (N.to_uint (Z.to_N n)).

(** A number of tenths with one decimal place. *)
Definition one_decimal (t : Z) : string :=
  decimal (t / 10) ++ "." ++ decimal (t mod 10).

Definition render (n : Z) : string :=
  match largest_unit n with
  | Bytes => decimal n ++ " " ++ unit_name Bytes
  | u => one_decimal (round_tenths n (unit_bytes u)) ++ " " ++ unit_name u
  end.

(** Modelled from the spec: django's template filter [filesizeformat] is
    not part of the sources.  The specification describes its result as
    the byte count converted to the largest unit (bytes, KB, MB, GB, TB)
    in which the value is at least 1, rounded to one decimal place, as in
    [1.0 MB]; a count below 1 KB is a whole number of bytes, and a
    negative count is the rendering of its absolute value after a minus
    sign. *)
Definition filesizeformat (bytes_ : Z) : string :=
  if bytes_ <? 0 then "-" ++ render (- bytes_) else render bytes_.

End FileSize.

Definition file_size_message (limit size : string) : string :=
  "Please keep filesize under " ++ limit
  ++ ". Requested upload size was " ++ size.

Section FileSizeValidator.

(** django's template filter [filesizeformat]. *)
Variable filesizeformat : Z -> string.

(** The setting [settings.SECR_MAX_UPLOAD_SIZE]. *)
Variable SECR_MAX_UPLOAD_SIZE : Z.

Definition validate_file_size (file : File.t) : result unit :=
  raise_if (File._size file >? SECR_MAX_UPLOAD_SIZE)%Z
    (ValidationError
       (file_size_message (filesizeformat SECR_MAX_UPLOAD_SIZE)
                          (filesizeformat (File._size file)))).

End FileSizeValidator.

(** ** [validate_mime_type] *)

(** [s.replace(old, new)] for a non-empty [old]: the occurrences of [old]
    are found from left to right, each search starting after the previous
    occurrence.  [inside] counts the characters of the current occurrence
    that are still to be skipped. *)
Fixpoint replace_from (old new : string) (inside : nat) (s : string) : string :=
  match s with
  | EmptyString => EmptyString
  | String c s' =>
      match inside with
      | S k => replace_from old new k s'
      | O =>
          if startswith old s
          then new ++ replace_from old new (String.length old - 1) s'
          else String c (replace_from old new 0 s')
      end
  end.

Definition replace (old new s : string) : string := replace_from old new 0 s.

(** The pattern [(?m)^virtual\s]. *)
Definition virtual_line_regex : Sre.pattern :=
  Sre.AT_BEGINNING_LINE :: Sre.literals "virtual"
  ++ [Sre.IN false [Sre.CATEGORY_SPACE]].

(** The truth value of the allowed set [valid]: [None] and the empty
    list are false. *)
Definition truthy (valid : option (list string)) : bool :=
  match valid with
  | None => false
  | Some [] => false
  | Some (_ :: _) => true
  end.

Definition members (valid : option (list string)) : list string :=
  match valid with
  | None => []
  | Some l => l
  end.

Definition mime_type_message (mime_type : string) (valid : list string) : string :=
  "Found content with unexpected mime type: " ++ mime_type
  ++ ".  Expected one of " ++ join ", " valid ++ ".".

Section MimeType.

(** The sniffer [ietf.utils.mime.get_mime_type]: from the content to the
    MIME type and the encoding. *)
Variable get_mime_type : string -> string * string.

(** The detection, with the work-around for text in which a line has
    [virtual] as its first word. *)
Definition detect_mime_type (raw : string) : string * string :=
  let '(mime_type, encoding) := get_mime_type raw in
  if String.eqb mime_type "text/x-c++" && Sre.search virtual_line_regex raw
  then get_mime_type (replace "virtual" " virtual" raw)
  else (mime_type, encoding).

Definition validate_mime_type (file : File.t) (valid : option (list string))
  : result (string * string) :=
  let file := File.open file in
  let '(raw, file) := File.read file in
  let '(mime_type, encoding) := detect_mime_type raw in
  raise_if (truthy valid && negb (mem_string mime_type (members valid)))
    (ValidationError (mime_type_message mime_type (members valid))) ;;;
  Returns (mime_type, encoding).

End MimeType.

(** ** [validate_file_extension] *)

Module PosixPath.

Local Open Scope Z_scope.

(** [s.rfind(c)]: the index of the last [c] in [s], or -1. *)
Fixpoint rfind_from (c : ascii) (i : Z) (found : Z) (s : string) : Z :=
  match s with
  | EmptyString => found
  | String a s' => rfind_from c (i + 1) (if Ascii.eqb a c then i else found) s'
  end.

Definition rfind (c : ascii) (s : string) : Z := rfind_from c 0 (-1) s.

(** [p[i:i+1] != extsep]. *)
Definition differs_at (p : string) (i : Z) (extsep : ascii) : bool :=
  match String.get (Z.to_nat i) p with
  | Some a => negb (Ascii.eqb a extsep)
  | None => true
  end.

(** The loop of [_splitext] that skips the leading dots: [fuel] is the
    number of indices from [filenameIndex] to [dotIndex]. *)
Fixpoint skip_leading_dots (fuel : nat) (p : string) (filenameIndex : Z)
    (extsep : ascii) : bool :=
  match fuel with
  | O => false
  | S fuel' =>
      differs_at p filenameIndex extsep
      || skip_leading_dots fuel' p (filenameIndex + 1) extsep
  end.

(** [genericpath._splitext(p, sep, altsep, extsep)]. *)
Definition _splitext (p : string) (sep : ascii) (altsep : option ascii)
    (extsep : ascii) : string * string :=
  let sepIndex := rfind sep p in
  let sepIndex :=
    match altsep with
    | Some a => Z.max sepIndex (rfind a p)
    | None => sepIndex
    end in
  let dotIndex := rfind extsep p in
  if (dotIndex >? sepIndex)
     && skip_leading_dots (Z.to_nat (dotIndex - (sepIndex + 1))) p
          (sepIndex + 1) extsep
  then (substring 0 (Z.to_nat dotIndex) p, File.skip (Z.to_nat dotIndex) p)
  else (p, EmptyString).

(** [os.path.splitext] on a POSIX host. *)
Definition splitext (p : string) : string * string :=
  _splitext p "/"%char None "."%char.

End PosixPath.

Definition extension_message (ext : string) (valid : list string) : string :=
  "Found an unexpected extension: " ++ ext
  ++ ".  Expected one of " ++ join "," valid.

Definition validate_file_extension (file : File.t) (valid : list string)
  : result string :=
  let '(name, ext) := PosixPath.splitext (File.name file) in
  raise_if (negb (mem_string (lower ext) valid))
    (ValidationError (extension_message ext valid)) ;;;
  Returns ext.

(** ** [validate_no_html_frame] *)

(** An element of a document tree: its tag, its attributes, its
    children. *)
#[warnings="-register-all"]
Inductive element : Type :=
| Element (tag : string) (attrib : list (string * string))
    (children : list element).

(** The elements of the tree of [e], [e] included, that have the tag
    [selector], in document order. *)
Fixpoint select (selector : string) (e : element) : list element :=
  match e with
  | Element tag _ children =>
      (if String.eqb tag selector then [e] else [])
      ++ flat_map (select selector) children
  end.

(** [q(selector)] for a tag name, [q] being the roots of a parsed
    document. *)
Definition query (q : list element) (selector : string) : list element :=
  flat_map (select selector) q.

(** The truth value of a query result. *)
Definition nonempty {A : Type} (l : list A) : bool :=
  match l with
  | [] => false
  | _ :: _ => true
  end.

Definition html_frame_message : string :=
  "Found content with html frames.  "
  ++ "Please upload a file that does not use frames".

Section HtmlFrame.

(** The parser behind [PyQuery(content)]: from the content to the roots of
    the document tree, each element with its tag as lxml gives it (the
    tag of an element in a namespace is the namespace in braces and then
    the local name); the parser raises on content in which it finds no
    element. *)
Variable PyQuery : string -> result (list element).

Definition validate_no_html_frame (file : File.t) : result unit :=
  let file := File.open file in
  let '(raw, file) := File.read file in
  q <- PyQuery raw ;;
  raise_if (nonempty (query q "frameset") || nonempty (query q "frame")
            || nonempty (query q "iframe"))
    (ValidationError html_frame_message).

End HtmlFrame.

(** ** The file handle after a validator

    The two validators that read the file, each with the handle as the
    call leaves it. *)

Section FileHandle.

Variable get_mime_type : string -> string * string.
Variable PyQuery : string -> result (list element).

Definition validate_mime_type_handle (file : File.t)
    (valid : option (list string)) : result (string * string) * File.t :=
  let file := File.open file in
  let '(raw, file) := File.read file in
  let '(mime_type, encoding) := detect_mime_type get_mime_type raw in
  (raise_if (truthy valid && negb (mem_string mime_type (members valid)))
     (ValidationError (mime_type_message mime_type (members valid))) ;;;
   Returns (mime_type, encoding),
   file).

Definition validate_no_html_frame_handle (file : File.t)
  : result unit * File.t :=
  let file := File.open file in
  let '(raw, file) := File.read file in
  (q <- PyQuery raw ;;
   raise_if (nonempty (query q "frameset") || nonempty (query q "frame")
             || nonempty (query q "iframe"))
     (ValidationError html_frame_message),
   file).

End FileHandle.

(** ** [urllib.parse.urlparse]: the network location *)

Module UrlParse.

Definition scheme_chars : string :=
  "abcdefghijklmnopqrstuvwxyzABCDEFGHIJKLMNOPQRSTUVWXYZ0123456789+-.".

Definition digits : string := "0123456789".

(** [all(c in allowed for c in s)]. *)
Definition all_in (allowed s : string) : bool :=
  forallb (fun c => mem_char c allowed) (chars s).

(** [s.partition(c)]: the text before the first [c], and the text after it
    when there is one. *)
Fixpoint partition (c : ascii) (s : string) : string * option string :=
  match s with
  | EmptyString => (EmptyString, None)
  | String a s' =>
      if Ascii.eqb a c then (EmptyString, Some s')
      else let '(before, after) := partition c s' in (String a before, after)
  end.

(** [s.rpartition(c)[2]]: the text after the last [c], or all of [s]. *)
Fixpoint after_last (c : ascii) (s : string) : string :=
  match s with
  | EmptyString => EmptyString
  | String a s' =>
      if mem_char c s' then after_last c s'
      else if Ascii.eqb a c then s' else s
  end.

(** [_splitnetloc(url, 2)[0]] on the text after the two slashes: all of it
    up to the first of [/], [?] and [#]. *)
Fixpoint netloc_of (s : string) : string :=
  match s with
  | EmptyString => EmptyString
  | String a s' =>
      if mem_char a "/?#" then EmptyString else String a (netloc_of s')
  end.

(** What [urlsplit] leaves of [url] once the scheme is taken off: a scheme
    is taken off when a colon stands after a non-empty run of scheme
    characters, unless that run is not [http] and only digits follow the
    colon (then the text is read as a host and a port). *)
Definition after_scheme (url : string) : string :=
  match partition ":"%char url with
  | (_, None) => url
  | (EmptyString, Some _) => url
  | (scheme, Some rest) =>
      if String.eqb scheme "http" then rest
      else if all_in scheme_chars scheme
              && (String.eqb rest EmptyString || negb (all_in digits rest))
      then rest
      else url
  end.

(** [urlparse(url).netloc]; the call raises [ValueError] when only one of
    the two brackets occurs in the network location. *)
Definition netloc (url : string) : result string :=
  match after_scheme url with
  | String "/" (String "/" rest) =>
      let n := netloc_of rest in
      if xorb (mem_char "["%char n) (mem_char "]"%char n)
      then Raises (ValueError "Invalid IPv6 URL")
      else Returns n
  | _ => Returns EmptyString
  end.

(** The host component of a network location, as [urlparse(url).hostname]
    gives it: the user information up to the last [@] is dropped, then
    the port from the first colon on (for a host in brackets, all that
    follows the brackets), and the host is lower-cased; an empty host is
    [None]. *)
Definition hostname_of (netloc : string) : option string :=
  let hostinfo := after_last "@"%char netloc in
  let host :=
    match partition "["%char hostinfo with
    | (_, Some bracketed) => fst (partition "]"%char bracketed)
    | (_, None) => fst (partition ":"%char hostinfo)
    end in
  match host with
  | EmptyString => None
  | _ => Some (lower host)
  end.

End UrlParse.

(** ** [validate_external_resource_value] *)

Module ResourceType.
(** The type of a resource name, [name.type]. *)
Record t : Type := { slug : string; name : string }.
End ResourceType.

Module ResourceName.
(** A resource name, with its own slug and its type. *)
Record t : Type := { slug : string; type : ResourceType.t }.
End ResourceName.

Definition github_message : string := "URL must be a github url".

Definition unknown_type_message (type_name : string) : string :=
  "Unknown resource type " ++ type_name.

Section ExternalResource.

(** django's validators: [URLValidator()],
    [URLValidator(schemes=['http','https'])] and [EmailValidator()]. *)
Variable validate_url : string -> result unit.
Variable validate_http_url : string -> result unit.
Variable validate_email : string -> result unit.

Definition validate_external_resource_value (name : ResourceName.t)
    (value : string) : result unit :=
  let type_slug := ResourceType.slug (ResourceName.type name) in
  let slug := ResourceName.slug name in
  if String.eqb type_slug "url" then
    if mem_string slug ["github_org"; "github_repo"] then
      validate_http_url value ;;;
      (netloc <- UrlParse.netloc value ;;
       raise_if (negb (String.eqb (lower netloc) "github.com"))
         (ValidationError github_message))
    else if String.eqb slug "jabber_room" then
      Returns tt
    else
      validate_url value
  else if String.eqb type_slug "email" then
    validate_email value
  else if String.eqb type_slug "string" then
    Returns tt
  else
    Raises (ValidationError
              (unknown_type_message
                 (ResourceType.name (ResourceName.type name)))).

End ExternalResource.

(** * What the specification says, as predicates *)

(** A string without control characters, or such a string followed by one
    line feed. *)
Definition clean_or_trailing_newline (s : string) : Prop :=
  has_control s = false
  \/ exists s', s = s' ++ String LF "" /\ has_control s' = false.

(** [s] is a human-readable rendering of [n] bytes: the count is given in
    the largest of the units in which it is at least 1 (in bytes when it
    is in none), as a whole number of bytes or else as a number with one
    decimal place that is nearest to the value. *)
Definition human_readable (n : Z) (s : string) : Prop :=
  exists u : FileSize.size_unit,
    (FileSize.unit_bytes u <= n \/ u = FileSize.Bytes)%Z
    /\ (forall u', FileSize.unit_bytes u' <= n ->
                   FileSize.unit_bytes u' <= FileSize.unit_bytes u)%Z
    /\ ((u = FileSize.Bytes
         /\ s = FileSize.decimal n ++ " " ++ FileSize.unit_name u)
        \/ (u <> FileSize.Bytes
            /\ exists t : Z,
                 (2 * Z.abs (10 * n - t * FileSize.unit_bytes u)
                  <= FileSize.unit_bytes u)%Z
                 /\ s = FileSize.one_decimal t ++ " " ++ FileSize.unit_name u)).

(** [base] and [ext] split the file name [p]: [ext] is empty, or it is a
    dot followed by characters among which there is no dot and no
    slash. *)
Definition splits (p base ext : string) : Prop :=
  p = base ++ ext
  /\ (ext = ""
      \/ exists e, ext = String "." e
                   /\ mem_char "."%char e = false
                   /\ mem_char "/"%char e = false).

(** Some line of [raw] begins with the word [w] followed by white space: a
    line begins at the beginning of [raw] and after each line feed. *)
Definition line_begins_with (w raw : string) : Prop :=
  exists pre c post,
    raw = pre ++ w ++ String c post
    /\ Sre.is_space c = true
    /\ (pre = "" \/ exists pre', pre = pre' ++ String LF "").

(** [s] with a space inserted before every occurrence of [w]. *)
Fixpoint space_before_every (w s : string) : string :=
  match s with
  | EmptyString => EmptyString
  | String c s' =>
      if startswith w s
      then String SPACE (String c (space_before_every w s'))
      else String c (space_before_every w s')
  end.

(** [dots n]: [n] dots. *)
Fixpoint dots (n : nat) : string :=
  match n with
  | O => EmptyString
  | S n' => String "." (dots n')
  end.

(** [dir] is the part of a path before its last component: it is empty or
    it ends with a slash. *)
Definition directory_part (dir : string) : Prop :=
  dir = "" \/ exists d, dir = d ++ "/".

(** An entry of an allowed set that an extension can be equal to: it is
    its own lower-casing, and it is empty or a dot followed by characters
    among which there is no dot and no slash. *)
Definition matchable (x : string) : Prop :=
  lower x = x
  /\ (x = ""
      \/ exists e, x = String "." e
                   /\ mem_char "."%char e = false
                   /\ mem_char "/"%char e = false).

(** Induction on a document tree, with the property at hand for all
    children of an element. *)
Section ElementInduction.

Variable P : element -> Prop.
Hypothesis step :
  forall tag attrib children,
    Forall P children -> P (Element tag attrib children).

Fixpoint element_rect_children (e : element) : P e :=
  match e with
  | Element tag attrib children =>
      step tag attrib
        ((fix all (l : list element) : Forall P l :=
            match l with
            | [] => Forall_nil P
            | x :: l' => Forall_cons x (element_rect_children x) (all l')
            end) children)
  end.

End ElementInduction.

(** [tag_of e]: the tag of an element. *)
Definition tag_of (e : element) : string :=
  match e with
  | Element tag _ _ => tag
  end.

(** [within x e]: the element [x] is [e] or stands anywhere below [e]. *)
Inductive within (x : element) : element -> Prop :=
| within_self : within x x
| within_child (tag : string) (attrib : list (string * string))
    (children : list element) (child : element) :
    In child children -> within x child ->
    within x (Element tag attrib children).

(** A document has a frame when an element with one of the three frame
    tags stands anywhere in the tree of one of its roots. *)
Definition has_frame (roots : list element) : Prop :=
  exists root x,
    In root roots /\ within x root
    /\ In (tag_of x) ["frameset"; "frame"; "iframe"].

(** The local name of a tag: what follows the namespace in braces, or the
    tag itself when it has no namespace. *)
Fixpoint after_brace (s : string) : string :=
  match s with
  | EmptyString => EmptyString
  | String c s' => if Ascii.eqb c "}" then s' else after_brace s'
  end.

Definition local_name (tag : string) : string :=
  match tag with
  | String "{" rest => after_brace rest
  | _ => tag
  end.

(** A document contains a frame element when an element whose local name
    is one of the three frame names stands anywhere in the tree of one of
    its roots, in whatever namespace. *)
Definition contains_frame_element (roots : list element) : Prop :=
  exists root x,
    In root roots /\ within x root
    /\ In (local_name (tag_of x)) ["frameset"; "frame"; "iframe"].

(** A well-formed XHTML document with an [iframe], and the tree that the
    XML parser of lxml makes of it: every element is in the namespace of
    XHTML. *)
Definition XHTML : string := "http://www.w3.org/1999/xhtml".

Definition xhtml_tag (name : string) : string := "{" ++ XHTML ++ "}" ++ name.

Definition xhtml_content : string :=
  "<html xmlns=" ++ DQUOTE ++ XHTML ++ DQUOTE ++ "><body><iframe src="
  ++ DQUOTE ++ "x" ++ DQUOTE ++ "/></body></html>".

Definition xhtml_tree : list element :=
  [ Element (xhtml_tag "html") []
      [ Element (xhtml_tag "body") []
          [ Element (xhtml_tag "iframe") [("src", "x")] [] ] ] ].

Definition xhtml_file : File.t :=
  {| File.name := "page.xhtml"; File._size := 80; File.data := xhtml_content;
     File.pos := 0 |}.

(** Two objects that are no plain instances of [RegexStringValidator]: an
    integer, and an instance of a subclass. *)
Definition int_object : pyobject :=
  {| mro := [OtherClass "int"; OtherClass "object"] |}.

Definition subclass_instance : pyobject :=
  {| mro := [OtherClass "StrictRegexStringValidator"; RegexStringValidator;
             OtherClass "object"] |}.

(** Example resource names: a github organisation, of type [url], and a
    name of an unknown type whose slug is [bogus]. *)
Definition url_type : ResourceType.t :=
  {| ResourceType.slug := "url"; ResourceType.name := "URL" |}.

Definition github_org : ResourceName.t :=
  {| ResourceName.slug := "github_org"; ResourceName.type := url_type |}.

Definition bogus_type : ResourceType.t :=
  {| ResourceType.slug := "bogus"; ResourceType.name := "Mystery" |}.

Definition bogus_name : ResourceName.t :=
  {| ResourceName.slug := "thing"; ResourceName.type := bogus_type |}.

(** A validator that accepts every value. *)
Definition accept (value : string) : result unit := Returns tt.

(** A network location written without a bracket and, as every network
    location is, without [/], [?] and [#]. *)
Definition plain_netloc (n : string) : bool :=
  forallb (fun c => negb (mem_char c "/?#[]")) (chars n).

(** What may follow the network location in a URL: nothing, or a path, a
    query or a fragment, which begin with [/], [?] and [#]. *)
Definition after_netloc (rest : string) : bool :=
  match rest with
  | EmptyString => true
  | String c _ => mem_char c "/?#"
  end.

(** Example files: a hidden file in a directory whose name has a dot, and
    an archive with a double extension in capitals. *)
Definition hidden_file : File.t :=
  {| File.name := "docs.d/.bashrc"; File._size := 0; File.data := "";
     File.pos := 0 |}.

Definition archive_file : File.t :=
  {| File.name := "uploads/archive.tar.GZ"; File._size := 0; File.data := "";
     File.pos := 0 |}.

(** An example file. *)
Definition readme : File.t :=
  {| File.name := "README.TXT"; File._size := 0; File.data := "";
     File.pos := 0 |}.

(** * Properties *)

(** ** Results *)

Lemma passes_Returns (A : Type) (a : A) : passes (Returns a).
Proof. now exists a. Qed.

Lemma not_passes_Raises (A : Type) (e : exn) : ~ passes (@Raises A e).
Proof. intros [a H]. discriminate H. Qed.

Lemma passes_unit (m : result unit) : passes m <-> m = Returns tt.
Proof.
  split.
  - intros [[] H]. exact H.
  - intros ->. apply passes_Returns.
Qed.

Lemma raise_if_passes (c : bool) (e : exn) :
  passes (raise_if c e) <-> c = false.
Proof.
  destruct c; simpl; split; intro H.
  - now apply not_passes_Raises in H.
  - discriminate H.
  - reflexivity.
  - apply passes_Returns.
Qed.

Lemma raise_if_fails (c : bool) (msg msg' : string) :
  fails_with (raise_if c (ValidationError msg)) msg' <-> c = true /\ msg = msg'.
Proof.
  unfold fails_with. destruct c; simpl; split.
  - intros H. injection H as ->. now split.
  - intros [_ ->]. reflexivity.
  - discriminate.
  - intros [H _]. discriminate H.
Qed.

(** A test that decides [P] is false exactly when [P] does not hold. *)
Lemma false_iff_not (b : bool) (P : Prop) :
  (b = true <-> P) -> (b = false <-> ~ P).
Proof.
  intros [H1 H2]. destruct b; split; intro H.
  - discriminate H.
  - contradiction H. now apply H1.
  - intros HP. apply H2 in HP. discriminate HP.
  - reflexivity.
Qed.

(** ** Strings *)

Lemma startswith_spec (p s : string) :
  startswith p s = true <-> exists rest, s = p ++ rest.
Proof.
  revert s. induction p as [|a p IH]; intros s; simpl.
  - split; [intros _; now exists s | reflexivity].
  - destruct s as [|b s].
    + split; [discriminate | intros [rest H]; discriminate H].
    + rewrite andb_true_iff, Ascii.eqb_eq, IH. split.
      * intros [-> [rest ->]]. now exists rest.
      * intros [rest H]. injection H as -> ->. split; [reflexivity | now exists rest].
Qed.

Lemma contains_spec (sub s : string) :
  contains sub s = true <-> Substring sub s.
Proof.
  unfold Substring. induction s as [|c s IH].
  - simpl. rewrite orb_false_r, startswith_spec. split.
    + intros [rest H]. now exists EmptyString, rest.
    + intros [[|a pre] [post H]]; [now exists post | discriminate H].
  - simpl. rewrite orb_true_iff, startswith_spec, IH. split.
    + intros [[rest H] | [pre [post H]]].
      * now exists EmptyString, rest.
      * exists (String c pre), post. simpl. now rewrite H.
    + intros [[|a pre] [post H]].
      * left. now exists post.
      * right. injection H as _ H. now exists pre, post.
Qed.

Lemma contains_false (sub s : string) :
  contains sub s = false <-> ~ Substring sub s.
Proof. apply false_iff_not, contains_spec. Qed.

Lemma Substring_append_l (sub a b : string) :
  Substring sub b -> Substring sub (a ++ b).
Proof.
  intros [pre [post ->]]. exists (a ++ pre), post.
  induction a as [|c a IH]; simpl; [reflexivity | now rewrite IH].
Qed.

Lemma Substring_prefix (sub b : string) : Substring sub (sub ++ b).
Proof. now exists EmptyString, b. Qed.

Lemma append_nil_r (a : string) : a ++ "" = a.
Proof. induction a as [|x a IH]; simpl; [reflexivity | now rewrite IH]. Qed.

Lemma length_append (a b : string) :
  String.length (a ++ b) = String.length a + String.length b.
Proof. induction a as [|x a IH]; simpl; [reflexivity | now rewrite IH]. Qed.

Lemma mem_string_spec (x : string) (l : list string) :
  mem_string x l = true <-> In x l.
Proof.
  unfold mem_string. rewrite existsb_exists. split.
  - intros [y [Hin Heq]]. apply String.eqb_eq in Heq. now subst y.
  - intros H. exists x. split; [exact H | apply String.eqb_refl].
Qed.

Lemma mem_string_false (x : string) (l : list string) :
  mem_string x l = false <-> ~ In x l.
Proof. apply false_iff_not, mem_string_spec. Qed.

(** ** The equations of the matcher *)

Lemma matches_anchor (p : Sre.pattern) (prev : option ascii) (s : string) :
  Sre.matches (Sre.AT_BEGINNING :: p) prev s
  = Sre.at_beginning prev && Sre.matches p prev s.
Proof. reflexivity. Qed.

Lemma matches_line_anchor (p : Sre.pattern) (prev : option ascii) (s : string) :
  Sre.matches (Sre.AT_BEGINNING_LINE :: p) prev s
  = Sre.at_beginning_line prev && Sre.matches p prev s.
Proof. reflexivity. Qed.

Lemma matches_end (p : Sre.pattern) (prev : option ascii) (s : string) :
  Sre.matches (Sre.AT_END :: p) prev s = Sre.at_end s && Sre.matches p prev s.
Proof. reflexivity. Qed.

Lemma matches_repeat_cons (neg : bool) (items : list Sre.set_item)
    (p : Sre.pattern) (prev : option ascii) (c : ascii) (s : string) :
  Sre.matches (Sre.MAX_REPEAT_IN neg items :: p) prev (String c s)
  = (Sre.in_set neg items c
     && Sre.matches (Sre.MAX_REPEAT_IN neg items :: p) (Some c) s)
    || Sre.matches p prev (String c s).
Proof. reflexivity. Qed.

Lemma search_from_cons (p : Sre.pattern) (prev : option ascii) (c : ascii)
    (s : string) :
  Sre.search_from p prev (String c s)
  = Sre.matches p prev (String c s) || Sre.search_from p (Some c) s.
Proof. reflexivity. Qed.

Lemma search_from_nil (p : Sre.pattern) (prev : option ascii) :
  Sre.search_from p prev "" = Sre.matches p prev "".
Proof. simpl. apply orb_false_r. Qed.

(** A pattern that starts with [^] matches at the beginning only. *)
Lemma search_anchored (p : Sre.pattern) (c : ascii) (s : string) :
  Sre.search_from (Sre.AT_BEGINNING :: p) (Some c) s = false.
Proof.
  revert c. induction s as [|d s IH]; intros c.
  - reflexivity.
  - rewrite search_from_cons, matches_anchor, IH. reflexivity.
Qed.

(** ** The control-character validator *)

Lemma in_set_control (c : ascii) :
  Sre.in_set true [Sre.RANGE (ascii_of_nat 0) (ascii_of_nat 31)] c
  = negb (is_control c).
Proof.
  unfold Sre.in_set, is_control, Sre.item_matches. cbn [existsb].
  rewrite orb_false_r.
  change (ord (ascii_of_nat 0)) with 0. change (ord (ascii_of_nat 31)) with 31.
  destruct (Nat.leb_spec 0 (ord c)), (Nat.leb_spec (ord c) 31),
    (Nat.ltb_spec (ord c) 32); simpl; try reflexivity; lia.
Qed.

Lemma at_end_spec (s : string) :
  Sre.at_end s = true <-> s = "" \/ s = String LF "".
Proof.
  destruct s as [|c [|d s]]; simpl.
  - split; [now left | reflexivity].
  - rewrite Ascii.eqb_eq. split.
    + intros ->. now right.
    + intros [H | H]; [discriminate H | now injection H].
  - split; [discriminate | intros [H | H]; discriminate H].
Qed.

Lemma has_control_cons (c : ascii) (s : string) :
  has_control (String c s) = is_control c || has_control s.
Proof. reflexivity. Qed.

Lemma tail_regex_spec (s : string) (prev : option ascii) :
  Sre.matches no_control_chars_tail prev s = true
  <-> clean_or_trailing_newline s.
Proof.
  unfold clean_or_trailing_newline, no_control_chars_tail. revert prev.
  induction s as [|c s IH]; intros prev.
  - simpl. split; [now left | reflexivity].
  - rewrite matches_repeat_cons, matches_end, in_set_control.
    rewrite orb_true_iff, !andb_true_iff, negb_true_iff.
    rewrite IH, at_end_spec, has_control_cons, orb_false_iff.
    split.
    + intros [[Hc [Hs | [s' [-> Hs']]]] | [[H | H] _]].
      * left. now split.
      * right. exists (String c s'). split; [reflexivity|].
        rewrite has_control_cons, Hc. exact Hs'.
      * discriminate H.
      * injection H as -> ->. right. now exists "".
    + intros [[Hc Hs] | [s' [Heq Hs']]].
      * left. split; [exact Hc | now left].
      * destruct s' as [|d s'].
        -- simpl in Heq. injection Heq as -> ->. right.
           split; [now right | reflexivity].
        -- simpl in Heq. injection Heq as -> ->.
           rewrite has_control_cons in Hs'.
           apply orb_false_iff in Hs' as [Hc Hs']. left. split; [exact Hc|].
           right. now exists s'.
Qed.

Lemma search_no_control_chars (s : string) :
  Sre.search no_control_chars_regex s = true <-> clean_or_trailing_newline s.
Proof.
  rewrite <- (tail_regex_spec s None).
  unfold Sre.search, no_control_chars_regex.
  destruct s as [|c s].
  - rewrite search_from_nil, matches_anchor. simpl Sre.at_beginning.
    rewrite andb_true_l. tauto.
  - rewrite search_from_cons, search_anchored, orb_false_r, matches_anchor.
    simpl Sre.at_beginning. rewrite andb_true_l. tauto.
Qed.

(** The validator passes exactly the strings without control characters
    and those strings followed by one line feed. *)
Lemma validate_no_control_chars_spec (value : string) :
  passes (validate_no_control_chars value) <-> clean_or_trailing_newline value.
Proof.
  rewrite <- search_no_control_chars.
  unfold validate_no_control_chars, RegexValidator_call. simpl.
  rewrite raise_if_passes, negb_false_iff. tauto.
Qed.

Lemma validate_no_control_chars_result (value : string) :
  validate_no_control_chars value = Returns tt
  \/ fails_with (validate_no_control_chars value) no_control_chars_message.
Proof.
  unfold validate_no_control_chars, RegexValidator_call, fails_with. simpl.
  destruct (Sre.search no_control_chars_regex value); simpl; auto.
Qed.

(** C1 (the code departs from the claim).  The claim: every string with a
    character in the range 0x00-0x1F fails the control-character validator
    and every other string passes.  The second half holds; the first does
    not, since [$] also matches before a final line feed: the two-character
    string made of [a] and a line feed contains a control character and
    passes. *)
Theorem C1_trailing_newline_passes :
  let value := String "a" (String LF "") in
  has_control value = true
  /\ validate_no_control_chars value = Returns tt
  /\ (forall s, has_control s = false -> passes (validate_no_control_chars s))
  /\ (forall s, has_control s = true ->
        (forall s', s <> s' ++ String LF "") ->
        fails_with (validate_no_control_chars s) no_control_chars_message).
Proof.
  split; [reflexivity|]. split; [reflexivity|]. split.
  - intros s H. apply validate_no_control_chars_spec. now left.
  - intros s Hc Hnl.
    destruct (validate_no_control_chars_result s) as [H | H]; [|exact H].
    assert (P : passes (validate_no_control_chars s)) by (rewrite H; apply passes_Returns).
    apply validate_no_control_chars_spec in P.
    destruct P as [P | [s' [-> _]]].
    + rewrite P in Hc. discriminate Hc.
    + now contradiction (Hnl s').
Qed.

(** ** The regular-expression-string validator *)

Section RegexStringProps.

Variable re_compile : string -> compile_outcome.

Lemma RegexStringValidator_call_compile_error (value e : string) :
  re_compile value = CompileError e ->
  fails_with (RegexStringValidator_call re_compile value)
    (invalid_regex_message value e).
Proof.
  intros H. unfold RegexStringValidator_call, fails_with. now rewrite H.
Qed.

Lemma RegexStringValidator_call_dash_star (value : string) :
  re_compile value = Compiled ->
  Substring "-*" value ->
  fails_with (RegexStringValidator_call re_compile value) dash_star_message.
Proof.
  intros H Hsub. apply contains_spec in Hsub.
  unfold RegexStringValidator_call, fails_with. now rewrite H, Hsub.
Qed.

Lemma RegexStringValidator_call_passes (value : string) :
  passes (RegexStringValidator_call re_compile value)
  <-> re_compile value = Compiled /\ ~ Substring "-*" value.
Proof.
  unfold RegexStringValidator_call.
  destruct (re_compile value) as [|e].
  - rewrite raise_if_passes, contains_false. tauto.
  - split.
    + intros H. now apply not_passes_Raises in H.
    + intros [H _]. discriminate H.
Qed.

End RegexStringProps.

Lemma invalid_regex_message_reports (value e : string) :
  Substring value (invalid_regex_message value e)
  /\ Substring e (invalid_regex_message value e).
Proof.
  unfold invalid_regex_message. split.
  - do 3 apply Substring_append_l. apply Substring_prefix.
  - do 7 apply Substring_append_l. apply Substring_prefix.
Qed.

(** C6.  The regular-expression-string validator fails on every string
    that does not compile, with a message that has the string and the
    error of the compiler in it; it fails on every string that contains
    [-*], whether the string compiles or not; and it passes exactly the
    strings that compile and do not contain [-*]. *)
Theorem C6_regex_string_validator
    (re_compile : string -> compile_outcome) (value : string) :
  (forall e, re_compile value = CompileError e ->
     fails_with (RegexStringValidator_call re_compile value)
       (invalid_regex_message value e)
     /\ Substring value (invalid_regex_message value e)
     /\ Substring e (invalid_regex_message value e))
  /\ (Substring "-*" value ->
        fails (RegexStringValidator_call re_compile value))
  /\ (re_compile value = Compiled /\ Substring "-*" value ->
        fails_with (RegexStringValidator_call re_compile value)
          dash_star_message)
  /\ (passes (RegexStringValidator_call re_compile value)
      <-> re_compile value = Compiled /\ ~ Substring "-*" value).
Proof.
  split; [|split; [|split]].
  - intros e H. split.
    + now apply RegexStringValidator_call_compile_error.
    + apply invalid_regex_message_reports.
  - intros Hsub. destruct (re_compile value) as [|e] eqn:E.
    + eexists. now apply RegexStringValidator_call_dash_star.
    + eexists. apply RegexStringValidator_call_compile_error. exact E.
  - intros [H Hsub]. now apply RegexStringValidator_call_dash_star.
  - apply RegexStringValidator_call_passes.
Qed.

(** ** Equality of regular-expression-string validators *)

Lemma pyclass_eqb_spec (a b : pyclass) : pyclass_eqb a b = true <-> a = b.
Proof.
  destruct a as [|x], b as [|y]; simpl.
  - tauto.
  - split; [discriminate | intros H; discriminate H].
  - split; [discriminate | intros H; discriminate H].
  - rewrite String.eqb_eq. split; [now intros -> | intros H; now injection H].
Qed.

(** [isinstance(o, c)] holds when [c] is among the classes of the method
    resolution order of the class of [o]. *)
Lemma isinstance_spec (o : pyobject) (c : pyclass) :
  isinstance o c = true <-> In c (mro o).
Proof.
  unfold isinstance. rewrite existsb_exists. split.
  - intros [x [Hin H]]. apply pyclass_eqb_spec in H. now subst x.
  - intros H. exists c. split; [exact H | now apply pyclass_eqb_spec].
Qed.

Lemma RegexStringValidator_eq_spec (self other : pyobject) :
  RegexStringValidator_eq self other = true
  <-> In RegexStringValidator (mro other).
Proof. apply isinstance_spec. Qed.

(** C9.  An instance of [RegexStringValidator] compares equal to an object
    exactly when that object is an instance of [RegexStringValidator]
    (its class is, or inherits from, [RegexStringValidator]): any two
    instances compare equal to each other, two fresh ones in particular,
    and an instance never compares equal to an object that is not one,
    an integer for example; [__ne__] is the negation of [__eq__]. *)
Theorem C9_regex_string_validator_equality (self other : pyobject) :
  (RegexStringValidator_eq self other = true
   <-> In RegexStringValidator (mro other))
  /\ (RegexStringValidator_ne self other = true
      <-> ~ In RegexStringValidator (mro other))
  /\ (In RegexStringValidator (mro self) ->
      In RegexStringValidator (mro other) ->
      RegexStringValidator_eq self other = true
      /\ RegexStringValidator_eq other self = true
      /\ RegexStringValidator_ne self other = false)
  /\ (~ In RegexStringValidator (mro other) ->
      RegexStringValidator_eq self other = false
      /\ RegexStringValidator_ne self other = true)
  /\ RegexStringValidator_eq RegexStringValidator_new RegexStringValidator_new
     = true
  /\ RegexStringValidator_eq RegexStringValidator_new subclass_instance = true
  /\ RegexStringValidator_eq RegexStringValidator_new int_object = false
  /\ RegexStringValidator_ne RegexStringValidator_new int_object = true.
Proof.
  assert (N : RegexStringValidator_ne self other = true
              <-> ~ In RegexStringValidator (mro other)).
  { unfold RegexStringValidator_ne. rewrite negb_true_iff.
    apply false_iff_not, RegexStringValidator_eq_spec. }
  split; [apply RegexStringValidator_eq_spec|]. split; [exact N|].
  split; [|split].
  - intros Hs Ho.
    pose proof (proj2 (@RegexStringValidator_eq_spec other self) Hs) as E1.
    pose proof (proj2 (@RegexStringValidator_eq_spec self other) Ho) as E2.
    unfold RegexStringValidator_ne. rewrite E2. now repeat split.
  - intros Ho. apply N in Ho. split; [|exact Ho].
    unfold RegexStringValidator_ne in Ho. now apply negb_true_iff in Ho.
  - repeat split.
Qed.

(** ** The file-size validator *)

Module FileSizeProps.

Import FileSize.
Local Open Scope Z_scope.

Lemma round_tenths_nearest (n u : Z) :
  0 < u -> 2 * Z.abs (10 * n - round_tenths n u * u) <= u.
Proof.
  intros Hu. unfold round_tenths.
  assert (Hne : u <> 0) by lia.
  pose proof (Z.div_mod (10 * n) u Hne) as Hdm.
  pose proof (Z.mod_pos_bound (10 * n) u Hu) as Hr.
  set (q := (10 * n) / u) in *. set (r := (10 * n) mod u) in *.
  destruct (Z.ltb_spec (2 * r) u) as [H1 | H1].
  - replace (10 * n - q * u) with r by lia. lia.
  - destruct (Z.ltb_spec u (2 * r)) as [H2 | H2].
    + replace (10 * n - (q + 1) * u) with (r - u) by lia. lia.
    + destruct (Z.even q).
      * replace (10 * n - q * u) with r by lia. lia.
      * replace (10 * n - (q + 1) * u) with (r - u) by lia. lia.
Qed.

Lemma unit_bytes_pos (u : size_unit) : 0 < unit_bytes u.
Proof. destruct u; reflexivity. Qed.

Lemma largest_unit_reached (n : Z) :
  unit_bytes (largest_unit n) <= n \/ largest_unit n = Bytes.
Proof.
  unfold largest_unit.
  destruct (Z.ltb_spec n (2 ^ 10)); [now right|].
  destruct (Z.ltb_spec n (2 ^ 20)); [now left|].
  destruct (Z.ltb_spec n (2 ^ 30)); [now left|].
  destruct (Z.ltb_spec n (2 ^ 40)); now left.
Qed.

Lemma largest_unit_largest (n : Z) (u' : size_unit) :
  unit_bytes u' <= n -> unit_bytes u' <= unit_bytes (largest_unit n).
Proof.
  unfold largest_unit.
  destruct (Z.ltb_spec n (2 ^ 10));
    [|destruct (Z.ltb_spec n (2 ^ 20));
      [|destruct (Z.ltb_spec n (2 ^ 30));
        [|destruct (Z.ltb_spec n (2 ^ 40))]]];
    destruct u'; cbn [unit_bytes] in *; lia.
Qed.

Lemma render_human_readable (n : Z) : human_readable n (render n).
Proof.
  exists (largest_unit n).
  split; [apply largest_unit_reached|].
  split; [intros u'; apply largest_unit_largest|].
  unfold render.
  destruct (largest_unit n) eqn:E.
  - left. now split.
  - right. split; [discriminate|]. eexists. split; [|reflexivity].
    apply round_tenths_nearest, unit_bytes_pos.
  - right. split; [discriminate|]. eexists. split; [|reflexivity].
    apply round_tenths_nearest, unit_bytes_pos.
  - right. split; [discriminate|]. eexists. split; [|reflexivity].
    apply round_tenths_nearest, unit_bytes_pos.
  - right. split; [discriminate|]. eexists. split; [|reflexivity].
    apply round_tenths_nearest, unit_bytes_pos.
Qed.

Lemma filesizeformat_human_readable (n : Z) :
  0 <= n -> human_readable n (filesizeformat n).
Proof.
  intros Hn. unfold filesizeformat.
  destruct (Z.ltb_spec n 0); [lia|]. apply render_human_readable.
Qed.

End FileSizeProps.

Lemma file_size_message_limit (limit size : string) :
  Substring limit (file_size_message limit size).
Proof.
  unfold file_size_message. apply Substring_append_l, Substring_prefix.
Qed.

Lemma file_size_message_size (limit size : string) :
  Substring size (file_size_message limit size).
Proof.
  unfold file_size_message. do 3 apply Substring_append_l.
  exists EmptyString, EmptyString. simpl. now rewrite append_nil_r.
Qed.

Section FileSizeValidatorProps.

Variable filesizeformat : Z -> string.
Variable limit : Z.

Lemma validate_file_size_passes (file : File.t) :
  passes (validate_file_size filesizeformat limit file)
  <-> (File._size file <= limit)%Z.
Proof.
  unfold validate_file_size. rewrite raise_if_passes.
  rewrite Z.gtb_ltb, Z.ltb_ge. tauto.
Qed.

Lemma validate_file_size_fails (file : File.t) :
  (limit < File._size file)%Z ->
  fails_with (validate_file_size filesizeformat limit file)
    (file_size_message (filesizeformat limit)
       (filesizeformat (File._size file))).
Proof.
  intros H. unfold validate_file_size. apply raise_if_fails.
  split; [|reflexivity]. rewrite Z.gtb_ltb. now apply Z.ltb_lt.
Qed.

End FileSizeValidatorProps.

(** C5.  For a file of size S and a maximum M, [validate_file_size] passes
    if and only if S <= M; when it fails, the message contains the
    human-readable renderings of M and of S; a rendering gives the count
    in the largest unit (bytes, KB, MB, GB, TB) in which it is at least 1,
    to one decimal place, so that 1,048,576 is rendered [1.0 MB]. *)
Theorem C5_file_size (M : Z) (file : File.t) :
  let S := File._size file in
  let outcome := validate_file_size FileSize.filesizeformat M file in
  (passes outcome <-> (S <= M)%Z)
  /\ ((M < S)%Z ->
      exists msg,
        fails_with outcome msg
        /\ Substring (FileSize.filesizeformat M) msg
        /\ Substring (FileSize.filesizeformat S) msg)
  /\ (forall n, (0 <= n)%Z -> human_readable n (FileSize.filesizeformat n))
  /\ FileSize.filesizeformat 1048576 = "1.0 MB".
Proof.
  intros S outcome. split; [apply validate_file_size_passes|].
  split; [|split].
  - intros H. eexists. split.
    + now apply validate_file_size_fails.
    + split.
      * apply file_size_message_limit.
      * apply file_size_message_size.
  - apply FileSizeProps.filesizeformat_human_readable.
  - vm_compute. reflexivity.
Qed.

(** ** The file-extension validator *)

Module PosixPathProps.

Import PosixPath.

Lemma substring_skip (n : nat) (p : string) :
  substring 0 n p ++ File.skip n p = p.
Proof.
  revert p. induction n as [|n IH]; intros p.
  - destruct p; reflexivity.
  - destruct p as [|c p]; simpl; [reflexivity | now rewrite IH].
Qed.

Lemma skip_append (a b : string) : File.skip (String.length a) (a ++ b) = b.
Proof. induction a as [|c a IH]; simpl; [now destruct b | exact IH]. Qed.

Lemma mem_char_cons (c a : ascii) (s : string) :
  mem_char c (String a s) = Ascii.eqb c a || mem_char c s.
Proof. reflexivity. Qed.

Lemma mem_char_append (c : ascii) (a b : string) :
  mem_char c (a ++ b) = mem_char c a || mem_char c b.
Proof.
  induction a as [|x a IH]; simpl; [reflexivity|].
  rewrite !mem_char_cons, IH. apply orb_assoc.
Qed.

(** [rfind_from] gives [found] when [c] does not occur, and else the index
    of the last occurrence, counted from [i]. *)
Lemma rfind_from_spec (c : ascii) (s : string) (i found : Z) :
  (mem_char c s = false /\ rfind_from c i found s = found)
  \/ (exists a b, s = a ++ String c b
                  /\ rfind_from c i found s = (i + Z.of_nat (String.length a))%Z
                  /\ mem_char c b = false).
Proof.
  revert i found. induction s as [|x s IH]; intros i found.
  - left. now split.
  - simpl rfind_from.
    destruct (IH (i + 1)%Z (if Ascii.eqb x c then i else found))
      as [[Hm Hr] | [a [b [Hs [Hr Hb]]]]].
    + destruct (Ascii.eqb x c) eqn:E.
      * right. apply Ascii.eqb_eq in E. subst x.
        exists EmptyString, s. simpl. split; [reflexivity|].
        split; [rewrite Hr; lia | exact Hm].
      * left. rewrite mem_char_cons, Ascii.eqb_sym, E, Hm. now split.
    + right. exists (String x a), b. simpl. rewrite Hs. split; [reflexivity|].
      split; [|exact Hb]. rewrite <- Hs, Hr. lia.
Qed.

Lemma rfind_spec (c : ascii) (s : string) :
  (mem_char c s = false /\ rfind c s = (-1)%Z)
  \/ (exists a b, s = a ++ String c b
                  /\ rfind c s = Z.of_nat (String.length a)
                  /\ mem_char c b = false).
Proof.
  unfold rfind. destruct (rfind_from_spec c s 0 (-1))
    as [H | [a [b [Hs [Hr Hb]]]]]; [now left|].
  right. exists a, b. now rewrite Hr.
Qed.

(** Two ways to cut one string: the one with the shorter left part has the
    longer right part. *)
Lemma append_cut (a a' b b' : string) :
  a ++ b = a' ++ b' ->
  String.length a' <= String.length a ->
  exists m, b' = m ++ b.
Proof.
  revert a'. induction a as [|x a IH]; intros a' H Hlen.
  - destruct a'; [|simpl in Hlen; lia]. simpl in H. subst b.
    now exists EmptyString.
  - destruct a' as [|y a'].
    + simpl in H. subst b'. exists (String x a). reflexivity.
    + simpl in H. injection H as _ H. simpl in Hlen.
      apply (IH a' H). lia.
Qed.

(** After the last dot of [p], when it stands after the last slash, there
    is no slash. *)
Lemma no_slash_after_dot (p a b : string) (c d : ascii) :
  p = a ++ String c b ->
  (rfind d p < Z.of_nat (String.length a))%Z ->
  mem_char d b = false.
Proof.
  intros Hp Hlt.
  destruct (rfind_spec d p) as [[Hm _] | [a' [b' [Hp' [Hr Hb']]]]].
  - rewrite Hp, mem_char_append, mem_char_cons in Hm.
    apply orb_false_iff in Hm as [_ Hm]. now apply orb_false_iff in Hm.
  - rewrite Hr in Hlt.
    assert (E : a ++ String c b = a' ++ String d b') by now rewrite <- Hp.
    destruct (append_cut a a' _ _ E ltac:(lia)) as [m Hm].
    destruct m as [|y m].
    + simpl in Hm. rewrite Hm in E.
      assert (L : String.length (a ++ String c b)
                  = String.length (a' ++ String c b)) by now rewrite E.
      rewrite !length_append in L. lia.
    + simpl in Hm. injection Hm as _ Hm. rewrite Hm, mem_char_append in Hb'.
      apply orb_false_iff in Hb' as [_ Hb'].
      rewrite mem_char_cons in Hb'. now apply orb_false_iff in Hb'.
Qed.

Lemma splitext_splits (p : string) :
  splits p (fst (splitext p)) (snd (splitext p)).
Proof.
  unfold splitext, _splitext.
  destruct ((rfind "." p >? rfind "/" p)%Z
            && skip_leading_dots
                 (Z.to_nat (rfind "." p - (rfind "/" p + 1))) p
                 (rfind "/" p + 1) ".") eqn:E; cbn [fst snd].
  - apply andb_true_iff in E as [E _].
    rewrite Z.gtb_ltb in E. apply Z.ltb_lt in E.
    split; [now rewrite substring_skip|]. right.
    destruct (rfind_spec "." p) as [[_ Hr] | [a [b [Hp [Hr Hb]]]]].
    + rewrite Hr in E.
      destruct (rfind_spec "/" p) as [[_ Hr'] | [a' [b' [_ [Hr' _]]]]];
        rewrite Hr' in E; lia.
    + assert (K : File.skip (String.length a) (a ++ String "." b)
                  = String "." b) by apply skip_append.
      rewrite <- Hp in K. rewrite Hr, Nat2Z.id, K.
      exists b. split; [reflexivity|]. split; [exact Hb|].
      apply no_slash_after_dot with (p := p) (a := a) (c := "."%char).
      * exact Hp.
      * now rewrite <- Hr.
  - split; [now rewrite append_nil_r | now left].
Qed.

End PosixPathProps.

Lemma validate_file_extension_returns (file : File.t) (valid : list string) :
  let ext := snd (PosixPath.splitext (File.name file)) in
  In (lower ext) valid -> validate_file_extension file valid = Returns ext.
Proof.
  intros ext H. unfold validate_file_extension.
  fold ext. destruct (PosixPath.splitext (File.name file)) as [base e].
  simpl in ext. subst ext. apply mem_string_spec in H. now rewrite H.
Qed.

Lemma validate_file_extension_fails (file : File.t) (valid : list string) :
  let ext := snd (PosixPath.splitext (File.name file)) in
  ~ In (lower ext) valid ->
  fails_with (validate_file_extension file valid)
    (extension_message ext valid).
Proof.
  intros ext H. unfold validate_file_extension, fails_with.
  fold ext. destruct (PosixPath.splitext (File.name file)) as [base e].
  simpl in ext. subst ext. apply mem_string_false in H. now rewrite H.
Qed.

Lemma extension_message_reports (ext : string) (valid : list string) :
  Substring ext (extension_message ext valid)
  /\ Substring (join "," valid) (extension_message ext valid).
Proof.
  unfold extension_message. split.
  - apply Substring_append_l, Substring_prefix.
  - do 3 apply Substring_append_l. exists EmptyString, EmptyString.
    simpl. now rewrite append_nil_r.
Qed.

(** C3, the claim as stated fails: with the allowed set [.pdf], [.txt]
    and the file name [README.TXT] the validator passes, and it returns
    [.TXT], the extension as it stands in the name, not [.txt]. *)
Lemma C3_returns_extension_as_found :
  validate_file_extension readme [".pdf"; ".txt"] = Returns ".TXT"
  /\ ".TXT" <> lower ".TXT"
  /\ validate_file_extension readme [".pdf"; ".txt"] <> Returns ".txt".
Proof.
  split; [reflexivity|]. split; discriminate.
Qed.

(** C3, amended.  [validate_file_extension] splits the name into base and
    extension and tests the lower-cased extension for membership in the
    allowed set.  When it is not a member the validator fails, and the
    message reports the extension as found and the allowed set; when it
    is a member the validator returns the extension as it stands in the
    name, which is not lower-cased.  With the allowed set [.pdf], [.txt]
    and the name [README.TXT] it passes and returns [.TXT]. *)
Theorem C3_file_extension (file : File.t) (valid : list string) :
  let base := fst (PosixPath.splitext (File.name file)) in
  let ext := snd (PosixPath.splitext (File.name file)) in
  splits (File.name file) base ext
  /\ (In (lower ext) valid ->
      validate_file_extension file valid = Returns ext)
  /\ (~ In (lower ext) valid ->
      fails_with (validate_file_extension file valid)
        (extension_message ext valid)
      /\ Substring ext (extension_message ext valid)
      /\ Substring (join "," valid) (extension_message ext valid))
  /\ validate_file_extension readme [".pdf"; ".txt"] = Returns ".TXT".
Proof.
  intros base ext. split; [apply PosixPathProps.splitext_splits|].
  split; [apply validate_file_extension_returns|].
  split; [|reflexivity].
  intros H. split; [now apply validate_file_extension_fails|].
  apply extension_message_reports.
Qed.

(** ** The MIME-type validator *)

Lemma matches_in_last (neg : bool) (items : list Sre.set_item)
    (prev : option ascii) (s : string) :
  Sre.matches [Sre.IN neg items] prev s
  = match s with
    | String c _ => Sre.in_set neg items c
    | EmptyString => false
    end.
Proof. destruct s; simpl; [reflexivity | apply andb_true_r]. Qed.

Lemma in_set_space (c : ascii) :
  Sre.in_set false [Sre.CATEGORY_SPACE] c = Sre.is_space c.
Proof. unfold Sre.in_set. simpl. apply orb_false_r. Qed.

(** The literals of a word and then a white-space character match the
    texts that begin with the word and a white-space character. *)
Lemma matches_word_space (w : string) (prev : option ascii) (s : string) :
  Sre.matches (Sre.literals w ++ [Sre.IN false [Sre.CATEGORY_SPACE]])%list
    prev s = true
  <-> exists c post, s = w ++ String c post /\ Sre.is_space c = true.
Proof.
  revert prev s. induction w as [|a w IH]; intros prev s.
  - cbn [Sre.literals app]. rewrite matches_in_last. destruct s as [|c s].
    + split; [discriminate | intros [c [post [H _]]]; discriminate H].
    + rewrite in_set_space. split.
      * intros H. now exists c, s.
      * intros [c' [post [H Hc]]]. simpl in H. now injection H as -> _.
  - cbn [Sre.literals app Sre.matches]. destruct s as [|b s].
    + split; [discriminate | intros [c [post [H _]]]; discriminate H].
    + rewrite andb_true_iff, Ascii.eqb_eq, IH. split.
      * intros [-> [c [post [-> Hc]]]]. now exists c, post.
      * intros [c [post [H Hc]]]. simpl in H. injection H as -> ->.
        split; [reflexivity | now exists c, post].
Qed.

Lemma search_virtual_line_from (prev : option ascii) (s : string) :
  Sre.search_from virtual_line_regex prev s = true
  <-> exists pre c post,
        s = pre ++ "virtual" ++ String c post
        /\ Sre.is_space c = true
        /\ ((pre = "" /\ Sre.at_beginning_line prev = true)
            \/ exists pre', pre = pre' ++ String LF "").
Proof.
  unfold virtual_line_regex. revert prev.
  induction s as [|x s IH]; intros prev.
  - rewrite search_from_nil, matches_line_anchor, andb_true_iff.
    rewrite matches_word_space. split.
    + intros [_ [c [post [H _]]]]. discriminate H.
    + intros [[|y pre] [c [post [H _]]]]; discriminate H.
  - rewrite search_from_cons, orb_true_iff, matches_line_anchor.
    rewrite andb_true_iff, matches_word_space, IH. split.
    + intros [[Hp [c [post [H Hc]]]] | [pre [c [post [H [Hc Hpre]]]]]].
      * exists EmptyString, c, post. split; [exact H|]. split; [exact Hc|].
        left. now split.
      * exists (String x pre), c, post. split; [simpl; now rewrite H|].
        split; [exact Hc|]. right.
        destruct Hpre as [[-> Hx] | [pre' ->]].
        -- simpl in Hx. apply Ascii.eqb_eq in Hx. subst x. now exists EmptyString.
        -- now exists (String x pre').
    + intros [[|y pre] [c [post [H [Hc Hpre]]]]].
      * left. destruct Hpre as [[_ Hp] | [pre' Hp]].
        -- split; [exact Hp | now exists c, post].
        -- destruct pre'; discriminate Hp.
      * right. simpl in H. injection H as -> H.
        exists pre, c, post. split; [exact H|]. split; [exact Hc|].
        destruct Hpre as [[Hp _] | [pre' Hp]]; [discriminate Hp|].
        destruct pre' as [|z pre'].
        -- simpl in Hp. injection Hp as -> ->. left. now split.
        -- simpl in Hp. injection Hp as _ ->. right. now exists pre'.
Qed.

(** The search for [(?m)^virtual\s] finds the contents of which a line
    begins with [virtual] and white space. *)
Lemma search_virtual_line (raw : string) :
  Sre.search virtual_line_regex raw = true <-> line_begins_with "virtual" raw.
Proof.
  unfold Sre.search, line_begins_with. rewrite search_virtual_line_from.
  split; intros [pre [c [post [H [Hc Hpre]]]]]; exists pre, c, post;
    (split; [exact H|]); (split; [exact Hc|]).
  - destruct Hpre as [[Hp _] | Hp]; [now left | now right].
  - destruct Hpre as [Hp | Hp]; [left; now split | now right].
Qed.

(** Replacing [virtual] by a space and [virtual] puts a space before every
    occurrence of [virtual]: the word does not overlap itself, so the
    search from left to right misses no occurrence. *)
Lemma replace_virtual_bounded (n : nat) (s : string) :
  String.length s <= n ->
  replace_from "virtual" " virtual" 0 s = space_before_every "virtual" s.
Proof.
  revert s. induction n as [|n IH]; intros s Hlen.
  - destruct s; [reflexivity | simpl in Hlen; lia].
  - destruct (startswith "virtual" s) eqn:E.
    + apply startswith_spec in E as [rest ->].
      assert (Hrest : String.length rest <= n).
      { rewrite length_append in Hlen. simpl in Hlen. lia. }
      cbn. rewrite (IH rest Hrest). reflexivity.
    + destruct s as [|c s]; [reflexivity|].
      cbn [replace_from space_before_every]. rewrite E.
      rewrite IH; [reflexivity | simpl in Hlen; lia].
Qed.

Lemma replace_virtual (s : string) :
  replace "virtual" " virtual" s = space_before_every "virtual" s.
Proof. apply (replace_virtual_bounded (n := String.length s)). lia. Qed.

Section MimeTypeProps.

Variable get_mime_type : string -> string * string.

(** The content is sniffed as it is, or, for content sniffed as C++ source
    of which a line begins with [virtual], with a space before every
    [virtual]. *)
Lemma detect_mime_type_spec (raw : string) :
  let corrected :=
    fst (get_mime_type raw) = "text/x-c++" /\ line_begins_with "virtual" raw in
  (corrected
   /\ detect_mime_type get_mime_type raw
      = get_mime_type (space_before_every "virtual" raw))
  \/ (~ corrected
      /\ detect_mime_type get_mime_type raw = get_mime_type raw).
Proof.
  intros corrected. subst corrected. unfold detect_mime_type.
  destruct (get_mime_type raw) as [mime_type encoding] eqn:E. cbn [fst].
  destruct (String.eqb_spec mime_type "text/x-c++") as [Hm | Hm].
  - destruct (Sre.search virtual_line_regex raw) eqn:Hs; cbn [andb].
    + left. rewrite replace_virtual. apply search_virtual_line in Hs.
      now repeat split.
    + right. split; [|reflexivity]. intros [_ H].
      apply search_virtual_line in H. rewrite H in Hs. discriminate Hs.
  - right. cbn [andb]. split; [|reflexivity]. intros [H _]. contradiction.
Qed.

(** The content that is sniffed is the whole content of the file, wherever
    the read position was. *)
Lemma validate_mime_type_unfold (file : File.t) (valid : option (list string)) :
  validate_mime_type get_mime_type file valid
  = let mime_type := fst (detect_mime_type get_mime_type (File.data file)) in
    let encoding := snd (detect_mime_type get_mime_type (File.data file)) in
    if truthy valid && negb (mem_string mime_type (members valid))
    then Raises (ValidationError (mime_type_message mime_type (members valid)))
    else Returns (mime_type, encoding).
Proof.
  unfold validate_mime_type. cbn [File.read File.open File.pos File.data File.skip].
  destruct (detect_mime_type get_mime_type (File.data file)) as [m e].
  cbn [fst snd]. destruct (truthy valid && negb (mem_string m (members valid)));
    reflexivity.
Qed.

Lemma validate_mime_type_falsy (file : File.t) (valid : option (list string)) :
  truthy valid = false ->
  validate_mime_type get_mime_type file valid
  = Returns (detect_mime_type get_mime_type (File.data file)).
Proof.
  intros H. rewrite validate_mime_type_unfold. cbv zeta. rewrite H. cbn [andb].
  now destruct (detect_mime_type get_mime_type (File.data file)).
Qed.

Lemma validate_mime_type_member (file : File.t) (valid : option (list string)) :
  In (fst (detect_mime_type get_mime_type (File.data file))) (members valid) ->
  validate_mime_type get_mime_type file valid
  = Returns (detect_mime_type get_mime_type (File.data file)).
Proof.
  intros H. apply mem_string_spec in H.
  rewrite validate_mime_type_unfold. cbv zeta. rewrite H. cbn [negb].
  rewrite andb_false_r.
  now destruct (detect_mime_type get_mime_type (File.data file)).
Qed.

Lemma validate_mime_type_unexpected (file : File.t)
    (valid : option (list string)) :
  let mime_type := fst (detect_mime_type get_mime_type (File.data file)) in
  truthy valid = true ->
  ~ In mime_type (members valid) ->
  fails_with (validate_mime_type get_mime_type file valid)
    (mime_type_message mime_type (members valid)).
Proof.
  intros mime_type Ht H. apply mem_string_false in H.
  rewrite validate_mime_type_unfold. cbv zeta. fold mime_type.
  now rewrite Ht, H.
Qed.

End MimeTypeProps.

Lemma mime_type_message_lists (mime_type : string) (valid : list string) :
  Substring mime_type (mime_type_message mime_type valid)
  /\ Substring (join ", " valid) (mime_type_message mime_type valid).
Proof.
  unfold mime_type_message. split.
  - apply Substring_append_l, Substring_prefix.
  - do 3 apply Substring_append_l. apply Substring_prefix.
Qed.

(** C4, the claim as stated fails: with an empty allowed set the detected
    MIME type is not in the allowed set, and the validator does not fail;
    it returns the detected pair. *)
Lemma C4_empty_allowed_set_passes :
  let sniffer := fun _ : string => ("text/plain", "us-ascii") in
  ~ In "text/plain" (members (Some []))
  /\ validate_mime_type sniffer readme (Some [])
     = Returns ("text/plain", "us-ascii").
Proof.
  split; [intros H; exact H | reflexivity].
Qed.

(** C4, amended.  [validate_mime_type] sniffs the whole content of the file.
    If the sniffed type is [text/x-c++] and a line of the content begins
    with [virtual] followed by white space, the outcome is that of
    sniffing the content with a space inserted before every [virtual];
    else it is that of the first sniffing.  If the allowed set is not
    empty and the MIME type is not in it, the validator fails with a
    message that lists the found type and the allowed set; in every other
    case it returns the detected pair of type and encoding. *)
Theorem C4_mime_type (get_mime_type : string -> string * string)
    (file : File.t) (valid : option (list string)) :
  let raw := File.data file in
  let corrected :=
    fst (get_mime_type raw) = "text/x-c++" /\ line_begins_with "virtual" raw in
  exists mime_type encoding,
    ((corrected
      /\ (mime_type, encoding)
         = get_mime_type (space_before_every "virtual" raw))
     \/ (~ corrected /\ (mime_type, encoding) = get_mime_type raw))
    /\ ((truthy valid = true
         /\ ~ In mime_type (members valid)
         /\ fails_with (validate_mime_type get_mime_type file valid)
              (mime_type_message mime_type (members valid))
         /\ Substring mime_type (mime_type_message mime_type (members valid))
         /\ Substring (join ", " (members valid))
              (mime_type_message mime_type (members valid)))
        \/ ((truthy valid = false \/ In mime_type (members valid))
            /\ validate_mime_type get_mime_type file valid
               = Returns (mime_type, encoding))).
Proof.
  intros raw corrected.
  destruct (detect_mime_type get_mime_type raw) as [m e] eqn:D.
  exists m, e. split.
  - destruct (detect_mime_type_spec get_mime_type raw) as [[Hc H] | [Hc H]];
      rewrite D in H; [left | right]; now split.
  - assert (Dm : m = fst (detect_mime_type get_mime_type (File.data file)))
      by (fold raw; now rewrite D).
    destruct (truthy valid) eqn:Ht.
    + destruct (mem_string m (members valid)) eqn:Hm.
      * right. apply mem_string_spec in Hm. split; [now right|].
        rewrite <- D. apply validate_mime_type_member. now rewrite <- Dm.
      * left. apply mem_string_false in Hm. split; [reflexivity|].
        split; [exact Hm|]. split.
        -- rewrite Dm. apply validate_mime_type_unexpected; [exact Ht|].
           now rewrite <- Dm.
        -- apply mime_type_message_lists.
    + right. split; [now left|]. rewrite <- D.
      now apply validate_mime_type_falsy.
Qed.

(** C10.  When the allowed set given to [validate_mime_type] is empty, or
    is [None], the validator does not fail, whatever the detected MIME
    type is, and it returns the detected pair of type and encoding; the
    membership test decides only for an allowed set that is not empty. *)
Theorem C10_empty_allowed_set (get_mime_type : string -> string * string)
    (file : File.t) :
  validate_mime_type get_mime_type file None
  = Returns (detect_mime_type get_mime_type (File.data file))
  /\ validate_mime_type get_mime_type file (Some [])
     = Returns (detect_mime_type get_mime_type (File.data file))
  /\ (forall valid, truthy valid = false ->
        passes (validate_mime_type get_mime_type file valid))
  /\ (forall x l,
        passes (validate_mime_type get_mime_type file (Some (x :: l)))
        <-> In (fst (detect_mime_type get_mime_type (File.data file)))
              (x :: l)).
Proof.
  split; [now apply validate_mime_type_falsy|].
  split; [now apply validate_mime_type_falsy|]. split.
  - intros valid H. rewrite (validate_mime_type_falsy _ _ _ H).
    apply passes_Returns.
  - intros x l. rewrite validate_mime_type_unfold. cbv zeta.
    cbn [truthy andb members].
    rewrite <- mem_string_spec.
    destruct (mem_string _ (x :: l)); cbn [negb]; split; intro H.
    + reflexivity.
    + apply passes_Returns.
    + now apply not_passes_Raises in H.
    + discriminate H.
Qed.

(** ** The HTML-frame validator *)

Lemma select_spec (selector : string) (e x : element) :
  In x (select selector e) <-> within x e /\ tag_of x = selector.
Proof.
  revert x. induction e as [tag attrib children IH] using element_rect_children.
  intros x. cbn [select]. rewrite in_app_iff, in_flat_map.
  rewrite Forall_forall in IH. split.
  - intros [H | [child [Hin H]]].
    + destruct (String.eqb_spec tag selector) as [-> | _]; [|contradiction H].
      destruct H as [<- | []]. split; [apply within_self | reflexivity].
    + apply (IH child Hin) in H as [Hw Ht]. split; [|exact Ht].
      now apply within_child with (child := child).
  - intros [Hw Ht]. inversion Hw as [Heq | tag' attrib' children' child Hin Hc Heq].
    + left. subst x. cbn [tag_of] in Ht. subst tag.
      rewrite String.eqb_refl. now left.
    + right. exists child. split; [exact Hin|]. apply (IH child Hin). now split.
Qed.

Lemma nonempty_spec (A : Type) (l : list A) :
  nonempty l = true <-> exists x, In x l.
Proof.
  destruct l as [|a l]; simpl; split.
  - discriminate.
  - intros [x []].
  - intros _. exists a. now left.
  - reflexivity.
Qed.

Lemma query_spec (q : list element) (selector : string) :
  nonempty (query q selector) = true
  <-> exists root x, In root q /\ within x root /\ tag_of x = selector.
Proof.
  rewrite nonempty_spec. unfold query. split.
  - intros [x H]. apply in_flat_map in H as [root [Hin H]].
    apply select_spec in H. now exists root, x.
  - intros [root [x [Hin [Hw Ht]]]]. exists x. apply in_flat_map.
    exists root. split; [exact Hin|]. apply select_spec. now split.
Qed.

Lemma frame_queries (q : list element) :
  nonempty (query q "frameset") || nonempty (query q "frame")
  || nonempty (query q "iframe") = true
  <-> has_frame q.
Proof.
  rewrite !orb_true_iff, !query_spec. unfold has_frame. split.
  - intros [[H | H] | H]; destruct H as [root [x [Hin [Hw Ht]]]];
      exists root, x; (split; [exact Hin|]); (split; [exact Hw|]);
      rewrite Ht; simpl; auto.
  - intros [root [x [Hin [Hw Ht]]]]. simpl in Ht.
    destruct Ht as [Ht | [Ht | [Ht | []]]]; symmetry in Ht.
    + left. left. now exists root, x.
    + left. right. now exists root, x.
    + right. now exists root, x.
Qed.

Section HtmlFrameProps.

Variable PyQuery : string -> result (list element).

Lemma validate_no_html_frame_unfold (file : File.t) :
  validate_no_html_frame PyQuery file
  = (q <- PyQuery (File.data file) ;;
     raise_if (nonempty (query q "frameset") || nonempty (query q "frame")
               || nonempty (query q "iframe"))
       (ValidationError html_frame_message)).
Proof. reflexivity. Qed.

(** When the parser raises, so does the validator. *)
Lemma validate_no_html_frame_raises (file : File.t) (e : exn) :
  PyQuery (File.data file) = Raises e ->
  validate_no_html_frame PyQuery file = Raises e.
Proof. intros H. rewrite validate_no_html_frame_unfold. now rewrite H. Qed.

Lemma validate_no_html_frame_fails (file : File.t) (q : list element) :
  PyQuery (File.data file) = Returns q ->
  (fails_with (validate_no_html_frame PyQuery file) html_frame_message
   <-> has_frame q).
Proof.
  intros H. rewrite validate_no_html_frame_unfold, H. cbn [bind].
  rewrite raise_if_fails, frame_queries. tauto.
Qed.

Lemma validate_no_html_frame_passes (file : File.t) (q : list element) :
  PyQuery (File.data file) = Returns q ->
  (passes (validate_no_html_frame PyQuery file) <-> ~ has_frame q).
Proof.
  intros H. rewrite validate_no_html_frame_unfold, H. cbn [bind].
  rewrite raise_if_passes. apply false_iff_not, frame_queries.
Qed.

End HtmlFrameProps.

(** What the three queries find is a frame element: a tag without a
    namespace is its own local name. *)
Lemma has_frame_contains (q : list element) :
  has_frame q -> contains_frame_element q.
Proof.
  intros [root [x [Hin [Hw Ht]]]]. exists root, x.
  split; [exact Hin|]. split; [exact Hw|].
  simpl in Ht. destruct Ht as [Ht | [Ht | [Ht | []]]]; rewrite <- Ht;
    simpl; auto.
Qed.

Lemma xhtml_tree_contains_frame : contains_frame_element xhtml_tree.
Proof.
  exists (Element (xhtml_tag "html") []
            [ Element (xhtml_tag "body") []
                [ Element (xhtml_tag "iframe") [("src", "x")] [] ] ]),
    (Element (xhtml_tag "iframe") [("src", "x")] []).
  split; [now left|]. split.
  - eapply within_child; [now left|].
    eapply within_child; [now left|]. apply within_self.
  - simpl. auto.
Qed.

Lemma xhtml_tree_no_frame_found : ~ has_frame xhtml_tree.
Proof.
  apply (false_iff_not (frame_queries xhtml_tree)). reflexivity.
Qed.

(** C8 (the code departs from the claim).  The claim: the validator fails
    if and only if a [frameset], [frame] or [iframe] element stands
    anywhere in the parsed tree, and a document without such an element
    passes.  The queries of the code find the elements whose tag is
    exactly one of the three names.  A well-formed XHTML document is
    parsed as XML and its elements carry the namespace of XHTML in their
    tags, so its [iframe] is not found and the validator returns.  And on
    content in which the parser finds no element the parser raises, and
    the validator neither passes nor fails with a validation error.  What
    holds: when the parser returns a tree, the validator fails exactly
    when an element with one of the three tags as such stands in it, and
    what it rejects does contain a frame element. *)
Theorem C8_namespaced_iframe_passes :
  contains_frame_element xhtml_tree
  /\ (forall PyQuery,
        PyQuery xhtml_content = Returns xhtml_tree ->
        validate_no_html_frame PyQuery xhtml_file = Returns tt)
  /\ validate_no_html_frame (fun _ => Returns xhtml_tree) xhtml_file
     = Returns tt
  /\ (forall PyQuery file message,
        PyQuery (File.data file) = Raises (ParserError message) ->
        validate_no_html_frame PyQuery file = Raises (ParserError message)
        /\ ~ passes (validate_no_html_frame PyQuery file)
        /\ ~ fails (validate_no_html_frame PyQuery file))
  /\ (forall PyQuery file q,
        PyQuery (File.data file) = Returns q ->
        (fails_with (validate_no_html_frame PyQuery file) html_frame_message
         <-> has_frame q)
        /\ (passes (validate_no_html_frame PyQuery file) <-> ~ has_frame q))
  /\ (forall q, has_frame q -> contains_frame_element q).
Proof.
  split; [apply xhtml_tree_contains_frame|]. split.
  { intros PyQuery H. apply passes_unit.
    apply (validate_no_html_frame_passes PyQuery xhtml_file H).
    apply xhtml_tree_no_frame_found. }
  split; [reflexivity|]. split.
  { intros PyQuery file message H.
    rewrite (validate_no_html_frame_raises PyQuery file H).
    split; [reflexivity|]. split.
    - apply not_passes_Raises.
    - intros [msg F]. unfold fails_with in F. discriminate F. }
  split.
  { intros PyQuery file q H. split.
    - now apply validate_no_html_frame_fails.
    - now apply validate_no_html_frame_passes. }
  apply has_frame_contains.
Qed.

(** ** The external-resource validator *)

Module UrlParseProps.

Import UrlParse.

Lemma after_last_absent (c : ascii) (s : string) :
  mem_char c s = false -> after_last c s = s.
Proof.
  destruct s as [|a s]; [reflexivity|].
  rewrite PosixPathProps.mem_char_cons. intros H.
  apply orb_false_iff in H as [Ha Hs]. simpl.
  now rewrite Hs, Ascii.eqb_sym, Ha.
Qed.

Lemma partition_absent (c : ascii) (s : string) :
  mem_char c s = false -> partition c s = (s, None).
Proof.
  induction s as [|a s IH]; [reflexivity|].
  rewrite PosixPathProps.mem_char_cons. intros H.
  apply orb_false_iff in H as [Ha Hs]. simpl.
  now rewrite Ascii.eqb_sym, Ha, (IH Hs).
Qed.

(** Lower-casing neither makes nor removes a character that is not a
    letter. *)
Lemma mem_char_lower (c : ascii) (s : string) :
  (forall a, lower_char a = c -> a = c) ->
  lower_char c = c ->
  mem_char c (lower s) = mem_char c s.
Proof.
  intros Hinv Hfix. induction s as [|a s IH]; [reflexivity|].
  cbn [lower]. rewrite !PosixPathProps.mem_char_cons, IH. f_equal.
  destruct (Ascii.eqb_spec c a) as [-> | Hne].
  - rewrite Hfix. apply Ascii.eqb_refl.
  - apply Ascii.eqb_neq. intros H. apply Hne. symmetry. now apply Hinv.
Qed.

(** A goal about one character, settled on each of the 256 characters. *)
Ltac by_all_characters a :=
  destruct a as [[] [] [] [] [] [] [] []]; vm_compute;
  let H := fresh in intros H; try reflexivity; discriminate H.

Lemma lower_char_at (a : ascii) : lower_char a = "@"%char -> a = "@"%char.
Proof. by_all_characters a. Qed.

Lemma lower_char_bracket (a : ascii) : lower_char a = "["%char -> a = "["%char.
Proof. by_all_characters a. Qed.

Lemma lower_char_colon (a : ascii) : lower_char a = ":"%char -> a = ":"%char.
Proof. by_all_characters a. Qed.

(** A network location that is [github.com] up to case has the host
    [github.com]. *)
Lemma hostname_of_github (n : string) :
  lower n = "github.com" -> hostname_of n = Some "github.com".
Proof.
  intros H.
  assert (Hat : mem_char "@" n = false).
  { rewrite <- (mem_char_lower n lower_char_at eq_refl), H. reflexivity. }
  assert (Hbr : mem_char "[" n = false).
  { rewrite <- (mem_char_lower n lower_char_bracket eq_refl), H. reflexivity. }
  assert (Hco : mem_char ":" n = false).
  { rewrite <- (mem_char_lower n lower_char_colon eq_refl), H. reflexivity. }
  unfold hostname_of.
  rewrite (after_last_absent _ _ Hat), (partition_absent _ _ Hbr),
    (partition_absent _ _ Hco). cbn [fst].
  destruct n as [|a n]; [discriminate H | now rewrite H].
Qed.

End UrlParseProps.

Section ExternalResourceProps.

Variable validate_url : string -> result unit.
Variable validate_http_url : string -> result unit.
Variable validate_email : string -> result unit.

Local Abbreviation validate :=
  (validate_external_resource_value validate_url validate_http_url
     validate_email).

(** The branch of the github resources. *)
Lemma validate_github (name : ResourceName.t) (value : string) :
  ResourceType.slug (ResourceName.type name) = "url" ->
  In (ResourceName.slug name) ["github_org"; "github_repo"] ->
  validate name value
  = (validate_http_url value ;;;
     (netloc <- UrlParse.netloc value ;;
      raise_if (negb (String.eqb (lower netloc) "github.com"))
        (ValidationError github_message))).
Proof.
  intros Ht Hs. apply mem_string_spec in Hs.
  unfold validate_external_resource_value.
  now rewrite Ht, Hs.
Qed.

Lemma validate_github_passes (name : ResourceName.t) (value : string) :
  ResourceType.slug (ResourceName.type name) = "url" ->
  In (ResourceName.slug name) ["github_org"; "github_repo"] ->
  passes (validate name value)
  <-> passes (validate_http_url value)
      /\ exists netloc,
           UrlParse.netloc value = Returns netloc
           /\ lower netloc = "github.com".
Proof.
  intros Ht Hs. rewrite (validate_github name value Ht Hs).
  destruct (validate_http_url value) as [[]|e]; cbn [bind].
  - destruct (UrlParse.netloc value) as [n|e]; cbn [bind].
    + rewrite raise_if_passes, negb_false_iff, String.eqb_eq. split.
      * intros H. split; [apply passes_Returns | now exists n].
      * intros [_ [n' [Hn H]]]. now injection Hn as ->.
    + split.
      * intros H. now apply not_passes_Raises in H.
      * intros [_ [n [Hn _]]]. discriminate Hn.
  - split.
    + intros H. now apply not_passes_Raises in H.
    + intros [H _]. now apply not_passes_Raises in H.
Qed.

Lemma validate_github_fails (name : ResourceName.t) (value netloc : string) :
  ResourceType.slug (ResourceName.type name) = "url" ->
  In (ResourceName.slug name) ["github_org"; "github_repo"] ->
  passes (validate_http_url value) ->
  UrlParse.netloc value = Returns netloc ->
  lower netloc <> "github.com" ->
  fails_with (validate name value) github_message.
Proof.
  intros Ht Hs Hv Hn Hne. rewrite (validate_github name value Ht Hs).
  apply passes_unit in Hv. rewrite Hv, Hn. cbn [bind].
  apply raise_if_fails. split; [|reflexivity].
  apply negb_true_iff. now apply String.eqb_neq.
Qed.

Lemma validate_unknown_type (name : ResourceName.t) (value : string) :
  ~ In (ResourceType.slug (ResourceName.type name)) ["url"; "email"; "string"] ->
  fails_with (validate name value)
    (unknown_type_message (ResourceType.name (ResourceName.type name))).
Proof.
  intros H. unfold validate_external_resource_value, fails_with.
  destruct (String.eqb_spec (ResourceType.slug (ResourceName.type name)) "url")
    as [E | _]; [exfalso; apply H; rewrite E; simpl; auto|].
  destruct (String.eqb_spec (ResourceType.slug (ResourceName.type name)) "email")
    as [E | _]; [exfalso; apply H; rewrite E; simpl; auto|].
  destruct (String.eqb_spec (ResourceType.slug (ResourceName.type name)) "string")
    as [E | _]; [exfalso; apply H; rewrite E; simpl; auto|].
  reflexivity.
Qed.

End ExternalResourceProps.

(** C2, the claim as stated fails: the URL [https://github.com:443/ietf/ietf]
    is a well-formed HTTPS URL (django's [URLValidator] accepts a port,
    here a validator that accepts it stands for it) and its host is
    [github.com], yet the validator fails with the github message,
    because the network location, which the code compares, has the port
    in it. *)
Lemma C2_github_port_fails :
  let value := "https://github.com:443/ietf/ietf" in
  passes (accept value)
  /\ UrlParse.netloc value = Returns "github.com:443"
  /\ UrlParse.hostname_of "github.com:443" = Some "github.com"
  /\ fails_with (validate_external_resource_value accept accept accept
                   github_org value) github_message
  /\ ~ passes (validate_external_resource_value accept accept accept
                 github_org value).
Proof.
  split; [apply passes_Returns|]. split; [reflexivity|].
  split; [reflexivity|]. split; [reflexivity|]. apply not_passes_Raises.
Qed.

(** C2, amended.  For a resource name of type [url] whose own slug is
    [github_org] or [github_repo], the validator passes a value if and
    only if the value is a valid HTTP or HTTPS URL and its network
    location (the host together with any user information and port),
    lower-cased, is exactly [github.com]; when the URL is valid and the
    network location differs, it fails with the message [URL must be a
    github url].  A value that passes has the host [github.com]. *)
Theorem C2_github_url
    (validate_url validate_http_url validate_email : string -> result unit)
    (name : ResourceName.t) (value : string) :
  ResourceType.slug (ResourceName.type name) = "url" ->
  In (ResourceName.slug name) ["github_org"; "github_repo"] ->
  let outcome :=
    validate_external_resource_value validate_url validate_http_url
      validate_email name value in
  (passes outcome
   <-> passes (validate_http_url value)
       /\ exists netloc,
            UrlParse.netloc value = Returns netloc
            /\ lower netloc = "github.com")
  /\ (forall netloc,
        passes (validate_http_url value) ->
        UrlParse.netloc value = Returns netloc ->
        lower netloc <> "github.com" ->
        fails_with outcome github_message)
  /\ (passes outcome ->
      exists netloc,
        UrlParse.netloc value = Returns netloc
        /\ UrlParse.hostname_of netloc = Some "github.com").
Proof.
  intros Ht Hs outcome. split; [now apply validate_github_passes|]. split.
  - intros netloc. now apply validate_github_fails.
  - intros H. apply (validate_github_passes _ _ _ _ _ Ht Hs) in H.
    destruct H as [_ [netloc [Hn Hl]]]. exists netloc.
    split; [exact Hn | now apply UrlParseProps.hostname_of_github].
Qed.

(** The github organisation with the value [https://github.com/ietf/ietf]
    and validators that accept it. *)
Lemma C2_github_url_witness :
  passes (validate_external_resource_value accept accept accept github_org
            "https://github.com/ietf/ietf")
  /\ fails_with (validate_external_resource_value accept accept accept
                   github_org "https://gitlab.com/x") github_message.
Proof.
  split.
  - apply (C2_github_url accept accept accept github_org
             "https://github.com/ietf/ietf" eq_refl (or_introl eq_refl)).
    split; [apply passes_Returns|]. now exists "github.com".
  - apply (C2_github_url accept accept accept github_org
             "https://gitlab.com/x" eq_refl (or_introl eq_refl))
      with (netloc := "gitlab.com").
    + apply passes_Returns.
    + reflexivity.
    + discriminate.
Defined.

(** C7, the claim as stated fails: the message names the type by its
    [name], not by its slug; for a type with the slug [bogus] and the
    name [Mystery] the message does not contain [bogus]. *)
Lemma C7_message_names_type_name :
  fails_with (validate_external_resource_value accept accept accept
                bogus_name "x") "Unknown resource type Mystery"
  /\ ~ Substring "bogus" "Unknown resource type Mystery".
Proof.
  split; [reflexivity|]. apply contains_false. reflexivity.
Qed.

(** C7, amended.  For every resource name whose type slug is not one of
    [url], [email] and [string], the validator fails with the message
    [Unknown resource type] followed by the name of the type (the
    attribute [name] of the type, which need not be its slug). *)
Theorem C7_unknown_resource_type
    (validate_url validate_http_url validate_email : string -> result unit)
    (name : ResourceName.t) (value : string) :
  ~ In (ResourceType.slug (ResourceName.type name)) ["url"; "email"; "string"] ->
  fails_with
    (validate_external_resource_value validate_url validate_http_url
       validate_email name value)
    ("Unknown resource type " ++ ResourceType.name (ResourceName.type name))
  /\ Substring (ResourceType.name (ResourceName.type name))
       ("Unknown resource type " ++ ResourceType.name (ResourceName.type name)).
Proof.
  intros H. split.
  - now apply validate_unknown_type.
  - exists "Unknown resource type ", EmptyString. now rewrite append_nil_r.
Qed.

(** The name of the unknown type [bogus]. *)
Lemma C7_unknown_resource_type_witness :
  fails_with (validate_external_resource_value accept accept accept
                bogus_name "x") "Unknown resource type Mystery".
Proof.
  apply (C7_unknown_resource_type accept accept accept bogus_name "x").
  simpl. intros [H | [H | [H | []]]]; discriminate H.
Defined.

(** ** Further properties *)

(** The control-character validator passes exactly the strings without
    control characters and those strings followed by one line feed; every
    other string fails with the fixed message. *)
Theorem no_control_chars_exact (value : string) :
  (passes (validate_no_control_chars value)
   <-> clean_or_trailing_newline value)
  /\ (fails_with (validate_no_control_chars value) no_control_chars_message
      <-> ~ clean_or_trailing_newline value).
Proof.
  split; [apply validate_no_control_chars_spec|].
  rewrite <- validate_no_control_chars_spec.
  destruct (validate_no_control_chars_result value) as [H | H].
  - rewrite H. split.
    + discriminate.
    + intros N. contradiction N. apply passes_Returns.
  - split; [|intros _; exact H]. intros _. rewrite H. apply not_passes_Raises.
Qed.

(** The branches of the external-resource validator that the validators
    of django decide, and the two that check nothing: a [jabber_room] of
    type [url] and every name of type [string] pass, whatever the value;
    any other name of type [url] is checked by the general URL validator
    and a name of type [email] by the e-mail validator. *)
Theorem external_resource_other_branches
    (validate_url validate_http_url validate_email : string -> result unit)
    (own_slug type_name value : string) :
  let name_of type_slug :=
    {| ResourceName.slug := own_slug;
       ResourceName.type := {| ResourceType.slug := type_slug;
                               ResourceType.name := type_name |} |} in
  let validate :=
    validate_external_resource_value validate_url validate_http_url
      validate_email in
  validate (name_of "string") value = Returns tt
  /\ validate (name_of "email") value = validate_email value
  /\ (own_slug = "jabber_room" -> validate (name_of "url") value = Returns tt)
  /\ (~ In own_slug ["github_org"; "github_repo"; "jabber_room"] ->
      validate (name_of "url") value = validate_url value).
Proof.
  intros name_of validate. split; [reflexivity|]. split; [reflexivity|].
  split.
  - intros ->. reflexivity.
  - intros H. unfold validate, validate_external_resource_value, name_of.
    cbn [ResourceName.type ResourceName.slug ResourceType.slug].
    rewrite String.eqb_refl.
    assert (Hg : mem_string own_slug ["github_org"; "github_repo"] = false).
    { apply mem_string_false. intros Hin. apply H. simpl in *. tauto. }
    rewrite Hg.
    destruct (String.eqb_spec own_slug "jabber_room") as [E | _];
      [|reflexivity].
    exfalso. apply H. rewrite E. simpl. auto.
Qed.

(** ** The buffer that the MIME-type validator sniffs again *)

(** A word without a space that begins the modified content begins the
    content too: the only characters that are added are spaces. *)
Lemma startswith_space_before_every (w s : string) :
  mem_char SPACE w = false ->
  startswith w (space_before_every "virtual" s) = true ->
  startswith w s = true.
Proof.
  revert s. induction w as [|a w IH]; intros s Hw H; [reflexivity|].
  rewrite PosixPathProps.mem_char_cons in Hw.
  apply orb_false_iff in Hw as [Ha Hw].
  destruct s as [|c s]; [discriminate H|].
  cbn [space_before_every] in H.
  destruct (startswith "virtual" (String c s)).
  - cbn [startswith] in H. apply andb_true_iff in H as [H _].
    apply Ascii.eqb_eq in H. subst a. discriminate Ha.
  - cbn [startswith] in *. apply andb_true_iff in H as [H1 H2].
    rewrite H1. now apply IH.
Qed.

(** The modified content does not begin with [virtual]. *)
Lemma space_before_every_head (s : string) :
  startswith "virtual" (space_before_every "virtual" s) = false.
Proof.
  destruct (startswith "virtual" (space_before_every "virtual" s)) eqn:E;
    [|reflexivity].
  pose proof (startswith_space_before_every "virtual" s eq_refl E) as H.
  destruct s as [|c s]; [discriminate H|].
  cbn [space_before_every] in E. rewrite H in E. discriminate E.
Qed.

(** In the modified content a space stands before every [virtual]. *)
Lemma space_before_every_preceded (s pre rest : string) :
  space_before_every "virtual" s = pre ++ rest ->
  startswith "virtual" rest = true ->
  exists pre', pre = pre' ++ String SPACE "".
Proof.
  revert pre. induction s as [|c s IH]; intros pre H Hr.
  - destruct pre; [|discriminate H]. simpl in H. subst rest. discriminate Hr.
  - cbn [space_before_every] in H.
    destruct (startswith "virtual" (String c s)) eqn:E.
    + destruct pre as [|x [|y pre]].
      * simpl in H. subst rest. discriminate Hr.
      * simpl in H. injection H as <- _. now exists EmptyString.
      * simpl in H. injection H as <- <- H.
        destruct (IH pre H Hr) as [pre' ->].
        now exists (String SPACE (String c pre')).
    + destruct pre as [|x pre].
      * simpl in H. subst rest.
        assert (K : space_before_every "virtual" (String c s)
                    = String c (space_before_every "virtual" s))
          by (cbn [space_before_every]; now rewrite E).
        rewrite <- K, space_before_every_head in Hr. discriminate Hr.
      * simpl in H. injection H as <- H.
        destruct (IH pre H Hr) as [pre' ->]. now exists (String c pre').
Qed.

Lemma append_last_char (a b : string) (x y : ascii) :
  a ++ String x "" = b ++ String y "" -> x = y.
Proof.
  revert b. induction a as [|c a IH]; intros [|d b] H; simpl in H.
  - now injection H.
  - injection H as _ H. destruct b; discriminate H.
  - injection H as _ H. destruct a; discriminate H.
  - injection H as _ H. now apply IH in H.
Qed.

(** No line of the modified content begins with [virtual]. *)
Lemma space_before_every_no_line (s : string) :
  ~ line_begins_with "virtual" (space_before_every "virtual" s).
Proof.
  intros [pre [c [post [H [_ Hpre]]]]].
  destruct (space_before_every_preceded s pre _ H) as [pre' Hsp].
  - apply startswith_spec. now exists (String c post).
  - destruct Hpre as [-> | [pre'' ->]].
    + destruct pre'; discriminate Hsp.
    + apply append_last_char in Hsp. discriminate Hsp.
Qed.

(** Taking the space off every [ virtual] of the modified content gives the
    content back. *)
Lemma restore_virtual_bounded (n : nat) (s : string) :
  String.length s <= n ->
  replace_from " virtual" "virtual" 0 (space_before_every "virtual" s) = s.
Proof.
  revert s. induction n as [|n IH]; intros s Hlen.
  - destruct s; [reflexivity | simpl in Hlen; lia].
  - destruct (startswith "virtual" s) eqn:E.
    + apply startswith_spec in E as [rest ->].
      assert (Hrest : String.length rest <= n).
      { rewrite length_append in Hlen. simpl in Hlen. lia. }
      cbn. rewrite (IH rest Hrest). reflexivity.
    + destruct s as [|c s]; [reflexivity|].
      cbn [space_before_every]. rewrite E.
      cbn [replace_from].
      assert (Hs : startswith " virtual"
                     (String c (space_before_every "virtual" s)) = false).
      { change (startswith " virtual"
                  (String c (space_before_every "virtual" s)))
          with (Ascii.eqb SPACE c
                && startswith "virtual" (space_before_every "virtual" s)).
        rewrite space_before_every_head. apply andb_false_r. }
      rewrite Hs. rewrite IH; [reflexivity | simpl in Hlen; lia].
Qed.

(** The work-around of [validate_mime_type] removes what sets it off: in
    the content with [virtual] replaced by a space and [virtual], the
    search for a line that begins with [virtual] finds nothing, so that the
    detection run on that content sniffs it as it is. *)
Theorem resniffed_content_has_no_virtual_line
    (get_mime_type : string -> string * string) (raw : string) :
  let modified := replace "virtual" " virtual" raw in
  Sre.search virtual_line_regex modified = false
  /\ detect_mime_type get_mime_type modified = get_mime_type modified
  /\ (forall pre rest,
        modified = pre ++ "virtual" ++ rest ->
        exists pre', pre = pre' ++ " ").
Proof.
  intros modified. subst modified. rewrite replace_virtual.
  assert (S : Sre.search virtual_line_regex
                (space_before_every "virtual" raw) = false).
  { apply (false_iff_not (search_virtual_line _)).
    apply space_before_every_no_line. }
  split; [exact S|]. split.
  - unfold detect_mime_type. rewrite S.
    destruct (get_mime_type _) as [mime_type encoding].
    now rewrite andb_false_r.
  - intros pre rest H. apply (space_before_every_preceded raw pre _ H).
    apply startswith_spec. now exists rest.
Qed.

(** The replacement loses nothing of the content: replacing every
    [ virtual] of the modified content by [virtual] gives the content
    back, so that two contents with the same modified content are the
    same. *)
Theorem replace_virtual_round_trip (raw raw' : string) :
  replace " virtual" "virtual" (replace "virtual" " virtual" raw) = raw
  /\ (replace "virtual" " virtual" raw = replace "virtual" " virtual" raw' ->
      raw = raw').
Proof.
  assert (R : forall s,
             replace " virtual" "virtual" (replace "virtual" " virtual" s) = s).
  { intros s. rewrite replace_virtual.
    apply (restore_virtual_bounded (n := String.length s)). lia. }
  split; [apply R|]. intros H. rewrite <- (R raw), <- (R raw'). now rewrite H.
Qed.

(** ** Which names and which allowed sets the extension validator accepts *)

Module ExtensionProps.

Import PosixPath PosixPathProps.

Lemma lower_char_idempotent (a : ascii) :
  lower_char (lower_char a) = lower_char a.
Proof. destruct a as [[] [] [] [] [] [] [] []]; reflexivity. Qed.

Lemma lower_idempotent (s : string) : lower (lower s) = lower s.
Proof.
  induction s as [|a s IH]; [reflexivity|].
  cbn [lower]. now rewrite lower_char_idempotent, IH.
Qed.

Lemma lower_char_dot (a : ascii) : lower_char a = "."%char -> a = "."%char.
Proof. UrlParseProps.by_all_characters a. Qed.

Lemma lower_char_slash (a : ascii) : lower_char a = "/"%char -> a = "/"%char.
Proof. UrlParseProps.by_all_characters a. Qed.

Lemma validate_file_extension_passes (file : File.t) (valid : list string) :
  passes (validate_file_extension file valid)
  <-> In (lower (snd (splitext (File.name file)))) valid.
Proof.
  rewrite <- mem_string_spec. unfold validate_file_extension.
  destruct (splitext (File.name file)) as [base ext]. cbn [snd].
  destruct (mem_string (lower ext) valid); cbn [negb raise_if bind]; split;
    intros H.
  - reflexivity.
  - apply passes_Returns.
  - now apply not_passes_Raises in H.
  - discriminate H.
Qed.

(** The lower-cased extension of a name is an entry that can be matched. *)
Lemma lower_extension_matchable (p : string) :
  matchable (lower (snd (splitext p))).
Proof.
  split; [apply lower_idempotent|].
  destruct (splitext_splits p) as [_ [H | [e [H [Hd Hs]]]]]; rewrite H.
  - now left.
  - right. exists (lower e). split; [reflexivity|].
    split.
    + now rewrite (UrlParseProps.mem_char_lower e lower_char_dot eq_refl).
    + now rewrite (UrlParseProps.mem_char_lower e lower_char_slash eq_refl).
Qed.

End ExtensionProps.

(** The extension validator compares without regard to the case of the
    file name only: it passes a file exactly when the lower-cased
    extension is an entry of the allowed set, so that two names whose
    extensions differ in case alone fare alike, and an entry can admit a
    file only if it is lower-case and is empty or a dot followed by text
    without dot and slash.  An allowed set without such an entry (one
    written in capitals, or without the leading dots, or of double
    extensions) rejects every file. *)
Theorem file_extension_matchable_entries
    (file file' : File.t) (valid : list string) :
  let ext := snd (PosixPath.splitext (File.name file)) in
  let ext' := snd (PosixPath.splitext (File.name file')) in
  (passes (validate_file_extension file valid) <-> In (lower ext) valid)
  /\ matchable (lower ext)
  /\ (lower ext = lower ext' ->
      (passes (validate_file_extension file valid)
       <-> passes (validate_file_extension file' valid)))
  /\ ((forall x, In x valid -> ~ matchable x) ->
      fails_with (validate_file_extension file valid)
        (extension_message ext valid)).
Proof.
  intros ext ext'.
  split; [apply ExtensionProps.validate_file_extension_passes|].
  split; [apply ExtensionProps.lower_extension_matchable|]. split.
  - intros H. rewrite !ExtensionProps.validate_file_extension_passes.
    fold ext ext'. now rewrite H.
  - intros H. apply validate_file_extension_fails. fold ext.
    intros Hin. apply (H _ Hin).
    apply ExtensionProps.lower_extension_matchable.
Qed.

(** ** The extension of a file name, case by case *)

Module SplitextProps.

Import PosixPath PosixPathProps.

Lemma string_app_assoc (a b c : string) : (a ++ b) ++ c = a ++ b ++ c.
Proof. induction a as [|x a IH]; simpl; [reflexivity | now rewrite IH]. Qed.

Lemma rfind_from_absent (c : ascii) (s : string) (i found : Z) :
  mem_char c s = false -> rfind_from c i found s = found.
Proof.
  revert i found. induction s as [|a s IH]; intros i found H; [reflexivity|].
  rewrite mem_char_cons in H. apply orb_false_iff in H as [Ha Hs].
  simpl. rewrite Ascii.eqb_sym, Ha. now apply IH.
Qed.

Lemma rfind_from_app_absent (c : ascii) (a b : string) (i found : Z) :
  mem_char c b = false ->
  rfind_from c i found (a ++ b) = rfind_from c i found a.
Proof.
  revert i found. induction a as [|x a IH]; intros i found H.
  - now apply rfind_from_absent.
  - simpl. now apply IH.
Qed.

Lemma rfind_from_last (c : ascii) (a b : string) (i found : Z) :
  mem_char c b = false ->
  rfind_from c i found (a ++ String c b) = (i + Z.of_nat (String.length a))%Z.
Proof.
  revert i found. induction a as [|x a IH]; intros i found H.
  - simpl. rewrite Ascii.eqb_refl, (rfind_from_absent _ _ _ _ H). lia.
  - simpl append. simpl rfind_from. rewrite (IH _ _ H).
    simpl String.length. lia.
Qed.

(** The index of the last [c] is the length of what stands before it. *)
Lemma rfind_last (c : ascii) (a b : string) :
  mem_char c b = false ->
  rfind c (a ++ String c b) = Z.of_nat (String.length a).
Proof. intros H. unfold rfind. now rewrite (rfind_from_last _ a _ _ _ H). Qed.

Lemma rfind_below_length (c : ascii) (s : string) :
  (rfind c s < Z.of_nat (String.length s))%Z.
Proof.
  destruct (rfind_spec c s) as [[_ H] | [a [b [Hs [H _]]]]]; rewrite H.
  - lia.
  - rewrite Hs, length_append. simpl. lia.
Qed.

(** The last component of a path begins after the last slash. *)
Lemma last_component_index (dir tail : string) :
  directory_part dir ->
  mem_char "/" tail = false ->
  (rfind "/" (dir ++ tail) + 1 = Z.of_nat (String.length dir))%Z.
Proof.
  intros [-> | [d ->]] H.
  - simpl. unfold rfind. now rewrite rfind_from_absent.
  - rewrite string_app_assoc. simpl append. rewrite (rfind_last _ d _ H).
    rewrite length_append. simpl. lia.
Qed.

Lemma dots_snoc (n : nat) : dots (S n) = dots n ++ ".".
Proof. induction n as [|n IH]; [reflexivity|]. simpl in *. now rewrite <- IH. Qed.

Lemma mem_char_dots (c : ascii) (n : nat) :
  c <> "."%char -> mem_char c (dots n) = false.
Proof.
  intros H. induction n as [|n IH]; [reflexivity|].
  cbn [dots]. rewrite mem_char_cons, IH, orb_false_r. now apply Ascii.eqb_neq.
Qed.

Lemma length_dots (n : nat) : String.length (dots n) = n.
Proof. induction n as [|n IH]; simpl; [reflexivity | now rewrite IH]. Qed.

Lemma get_append_r (a b : string) (j : nat) :
  String.get (String.length a + j) (a ++ b) = String.get j b.
Proof. induction a as [|x a IH]; simpl; [reflexivity | exact IH]. Qed.

Lemma get_dots (n j : nat) (s : string) :
  j < n -> String.get j (dots n ++ s) = Some "."%char.
Proof.
  revert j. induction n as [|n IH]; intros j H; [lia|].
  destruct j as [|j]; [reflexivity|]. simpl. apply IH. lia.
Qed.

Lemma get_after_dots (n : nat) (s : string) :
  String.get n (dots n ++ s) = String.get 0 s.
Proof. induction n as [|n IH]; simpl; [reflexivity | exact IH]. Qed.

Lemma skip_leading_dots_all (fuel : nat) (p : string) (idx : nat) (extsep : ascii) :
  (forall j, j < fuel ->
     differs_at p (Z.of_nat (idx + j)) extsep = false) ->
  skip_leading_dots fuel p (Z.of_nat idx) extsep = false.
Proof.
  revert idx. induction fuel as [|fuel IH]; intros idx H; [reflexivity|].
  cbn [skip_leading_dots].
  rewrite <- (Nat.add_0_r idx) at 1. rewrite (H 0 ltac:(lia)). cbn [orb].
  replace (Z.of_nat idx + 1)%Z with (Z.of_nat (S idx)) by lia.
  apply IH. intros j Hj. replace (S idx + j) with (idx + S j) by lia.
  apply H. lia.
Qed.

Lemma skip_leading_dots_some (fuel : nat) (p : string) (idx j : nat)
    (extsep : ascii) :
  j < fuel ->
  differs_at p (Z.of_nat (idx + j)) extsep = true ->
  skip_leading_dots fuel p (Z.of_nat idx) extsep = true.
Proof.
  revert idx j. induction fuel as [|fuel IH]; intros idx j Hj H; [lia|].
  cbn [skip_leading_dots]. destruct j as [|j].
  - rewrite Nat.add_0_r in H. now rewrite H.
  - apply orb_true_iff. right.
    replace (Z.of_nat idx + 1)%Z with (Z.of_nat (S idx)) by lia.
    apply (IH (S idx) j); [lia|].
    now replace (S idx + j) with (idx + S j) by lia.
Qed.

Lemma substring_prefix (a b : string) :
  substring 0 (String.length a) (a ++ b) = a.
Proof.
  induction a as [|x a IH]; simpl; [now destruct b | now rewrite IH].
Qed.

(** A last component that is dots and then text without a dot has no
    extension. *)
Lemma splitext_no_extension (dir rest : string) (n : nat) :
  directory_part dir ->
  mem_char "." rest = false ->
  mem_char "/" rest = false ->
  splitext (dir ++ dots n ++ rest) = (dir ++ dots n ++ rest, "").
Proof.
  intros Hdir Hdot Hslash.
  assert (Htail : mem_char "/" (dots n ++ rest) = false).
  { rewrite mem_char_append, Hslash, mem_char_dots; [reflexivity | discriminate]. }
  pose proof (@last_component_index dir (dots n ++ rest) Hdir Htail) as Hsep.
  unfold splitext, _splitext.
  set (p := dir ++ dots n ++ rest) in *.
  destruct n as [|n].
  - assert (Hd : (rfind "." p <= rfind "/" p)%Z).
    { unfold p. simpl append. unfold rfind at 1.
      rewrite (rfind_from_app_absent _ dir _ _ _ Hdot).
      pose proof (rfind_below_length "." dir) as B. unfold rfind in B.
      unfold p in Hsep. simpl append in Hsep. lia. }
    destruct (Z.gtb_spec (rfind "." p) (rfind "/" p)); [lia | reflexivity].
  - assert (Hd : rfind "." p = Z.of_nat (String.length dir + n)).
    { unfold p. rewrite dots_snoc, string_app_assoc, <- string_app_assoc.
      simpl append. rewrite (rfind_last _ _ _ Hdot).
      now rewrite length_append, length_dots. }
    rewrite Hd.
    replace (rfind "/" p + 1)%Z with (Z.of_nat (String.length dir)) by lia.
    replace (Z.to_nat (Z.of_nat (String.length dir + n)
                       - Z.of_nat (String.length dir))) with n by lia.
    rewrite skip_leading_dots_all; [now rewrite andb_false_r|].
    intros j Hj. unfold differs_at. rewrite Nat2Z.id. unfold p.
    rewrite get_append_r, get_dots; [reflexivity | lia].
Qed.

(** A last component in which a character other than a dot stands before
    the last dot has the extension that begins at that dot. *)
Lemma splitext_extension (dir mid e : string) (n : nat) (c : ascii) :
  directory_part dir ->
  c <> "."%char -> c <> "/"%char ->
  mem_char "/" mid = false ->
  mem_char "/" e = false ->
  mem_char "." e = false ->
  splitext (dir ++ dots n ++ String c (mid ++ String "." e))
  = (dir ++ dots n ++ String c mid, String "." e).
Proof.
  intros Hdir Hc Hc' Hmid He Hdot.
  set (stem := dots n ++ String c mid).
  assert (Ep : dir ++ dots n ++ String c (mid ++ String "." e)
               = (dir ++ stem) ++ String "." e).
  { unfold stem. rewrite !string_app_assoc. reflexivity. }
  assert (Htail : mem_char "/" (dots n ++ String c (mid ++ String "." e))
                  = false).
  { rewrite mem_char_append, mem_char_cons, mem_char_append, mem_char_cons.
    rewrite Hmid, He, mem_char_dots by discriminate.
    assert (Ascii.eqb "/" c = false) as ->
      by (apply Ascii.eqb_neq; congruence).
    reflexivity. }
  pose proof (@last_component_index dir
                (dots n ++ String c (mid ++ String "." e)) Hdir Htail)
    as Hsep.
  unfold splitext, _splitext.
  set (p := dir ++ dots n ++ String c (mid ++ String "." e)) in *.
  assert (Hd : rfind "." p = Z.of_nat (String.length (dir ++ stem))).
  { rewrite Ep. now apply rfind_last. }
  rewrite Hd.
  assert (Hlen : String.length (dir ++ stem)
                 = String.length dir + (n + S (String.length mid))).
  { unfold stem. rewrite !length_append, length_dots. reflexivity. }
  replace (rfind "/" p + 1)%Z with (Z.of_nat (String.length dir)) by lia.
  assert (Hgt : (Z.of_nat (String.length (dir ++ stem)) >? rfind "/" p)%Z
                = true).
  { rewrite Z.gtb_ltb. apply Z.ltb_lt. lia. }
  rewrite Hgt. cbn [andb].
  rewrite skip_leading_dots_some with (j := n).
  - rewrite Nat2Z.id. rewrite Ep at 1 2.
    now rewrite substring_prefix, skip_append.
  - lia.
  - unfold differs_at. rewrite Nat2Z.id. unfold p.
    rewrite get_append_r, get_after_dots. simpl.
    apply negb_true_iff. now apply Ascii.eqb_neq.
Qed.

End SplitextProps.

(** A file name whose last component has no dot, or has dots only at its
    beginning (a hidden file), has the empty extension, whatever dots the
    directories before it have: the validator passes it when the empty
    string is an entry of the allowed set and returns the empty string;
    else it fails, and the message reports an empty extension. *)
Theorem file_without_extension (file : File.t) (valid : list string)
    (dir rest : string) (n : nat) :
  File.name file = dir ++ dots n ++ rest ->
  directory_part dir ->
  mem_char "." rest = false ->
  mem_char "/" rest = false ->
  (In "" valid -> validate_file_extension file valid = Returns "")
  /\ (~ In "" valid ->
      fails_with (validate_file_extension file valid)
        (extension_message "" valid)).
Proof.
  intros Hname Hdir Hdot Hslash.
  pose proof (@SplitextProps.splitext_no_extension dir rest n Hdir Hdot Hslash)
    as E.
  rewrite <- Hname in E.
  assert (Hext : snd (PosixPath.splitext (File.name file)) = "")
    by now rewrite E.
  pose proof (validate_file_extension_returns file valid) as R.
  pose proof (validate_file_extension_fails file valid) as F.
  cbv zeta in R, F. rewrite Hext in R, F. now split.
Qed.

(** The hidden file [docs.d/.bashrc] and the allowed set of [.txt]. *)
Lemma file_without_extension_witness :
  fails_with (validate_file_extension hidden_file [".txt"])
    (extension_message "" [".txt"]).
Proof.
  apply (@file_without_extension hidden_file [".txt"] "docs.d/" "bashrc" 1).
  - reflexivity.
  - right. now exists "docs.d".
  - reflexivity.
  - reflexivity.
  - simpl. intros [H | []]. discriminate H.
Defined.

(** When a character other than a dot stands before the last dot of the
    last component of a file name, the extension is the text from that
    last dot on, however many dots stand before it: of a double extension
    only the last part is tested.  The validator returns that text, in the
    case it has in the name, when its lower-casing is an entry of the
    allowed set, and fails with a message that reports it when not. *)
Theorem file_with_extension (file : File.t) (valid : list string)
    (dir mid e : string) (n : nat) (c : ascii) :
  File.name file = dir ++ dots n ++ String c (mid ++ String "." e) ->
  directory_part dir ->
  c <> "."%char -> c <> "/"%char ->
  mem_char "/" mid = false ->
  mem_char "/" e = false ->
  mem_char "." e = false ->
  (In (lower (String "." e)) valid ->
   validate_file_extension file valid = Returns (String "." e))
  /\ (~ In (lower (String "." e)) valid ->
      fails_with (validate_file_extension file valid)
        (extension_message (String "." e) valid)).
Proof.
  intros Hname Hdir Hc Hc' Hmid He Hdot.
  pose proof (@SplitextProps.splitext_extension dir mid e n c Hdir Hc Hc' Hmid
                He Hdot) as E.
  rewrite <- Hname in E.
  assert (Hext : snd (PosixPath.splitext (File.name file)) = String "." e)
    by now rewrite E.
  pose proof (validate_file_extension_returns file valid) as R.
  pose proof (validate_file_extension_fails file valid) as F.
  cbv zeta in R, F. rewrite Hext in R, F. now split.
Qed.

(** The archive [uploads/archive.tar.GZ] and the allowed set of [.gz]. *)
Lemma file_with_extension_witness :
  validate_file_extension archive_file [".gz"] = Returns ".GZ".
Proof.
  apply (@file_with_extension archive_file [".gz"] "uploads/" "rchive.tar"
           "GZ" 0 "a"%char).
  - reflexivity.
  - right. now exists "uploads".
  - discriminate.
  - discriminate.
  - reflexivity.
  - reflexivity.
  - reflexivity.
  - simpl. now left.
Defined.

(** ** Which URLs pass as github URLs *)

Module GithubProps.

Import UrlParse.

Lemma lower_length (s : string) : String.length (lower s) = String.length s.
Proof. induction s as [|a s IH]; simpl; [reflexivity | now rewrite IH]. Qed.

Lemma after_scheme_http (scheme x : string) :
  In scheme ["http"; "https"] ->
  after_scheme (scheme ++ "://" ++ x) = "//" ++ x.
Proof. intros [<- | [<- | []]]; reflexivity. Qed.

Lemma netloc_of_plain (n rest : string) :
  plain_netloc n = true ->
  after_netloc rest = true ->
  netloc_of (n ++ rest) = n
  /\ mem_char "[" n = false /\ mem_char "]" n = false.
Proof.
  intros Hn Hrest. induction n as [|a n IH].
  - split; [|now split]. destruct rest as [|c rest]; [reflexivity|].
    simpl in Hrest. simpl. now rewrite Hrest.
  - unfold plain_netloc in Hn. cbn [chars forallb] in Hn.
    apply andb_true_iff in Hn as [Ha Hn]. apply negb_true_iff in Ha.
    destruct (IH Hn) as [E [Hl Hr]].
    unfold mem_char in Ha. cbn [chars existsb] in Ha.
    repeat (apply orb_false_iff in Ha as [? Ha]).
    simpl append. cbn [netloc_of].
    assert (Hd : mem_char a "/?#" = false).
    { unfold mem_char. cbn [chars existsb].
      repeat (apply orb_false_iff; split); try assumption; reflexivity. }
    rewrite Hd, E. split; [reflexivity|].
    rewrite !PosixPathProps.mem_char_cons, Hl, Hr.
    rewrite (Ascii.eqb_sym "[" a), (Ascii.eqb_sym "]" a).
    split; apply orb_false_iff; split; try assumption; reflexivity.
Qed.

(** The network location of an HTTP or HTTPS URL. *)
Lemma netloc_http (scheme n rest : string) :
  In scheme ["http"; "https"] ->
  plain_netloc n = true ->
  after_netloc rest = true ->
  netloc (scheme ++ "://" ++ n ++ rest) = Returns n.
Proof.
  intros Hs Hn Hrest. unfold netloc.
  rewrite (after_scheme_http _ Hs). simpl append.
  destruct (netloc_of_plain n rest Hn Hrest) as [-> [-> ->]]. reflexivity.
Qed.

Lemma lower_char_question (a : ascii) : lower_char a = "?"%char -> a = "?"%char.
Proof. UrlParseProps.by_all_characters a. Qed.

Lemma lower_char_hash (a : ascii) : lower_char a = "#"%char -> a = "#"%char.
Proof. UrlParseProps.by_all_characters a. Qed.

Lemma lower_char_close (a : ascii) : lower_char a = "]"%char -> a = "]"%char.
Proof. UrlParseProps.by_all_characters a. Qed.

(** What is [github.com] up to case is ten characters without port and
    user information. *)
Lemma github_netloc_shape (n : string) :
  lower n = "github.com" ->
  String.length n = 10
  /\ mem_char ":" n = false /\ mem_char "@" n = false.
Proof.
  intros H. split; [now rewrite <- lower_length, H|]. split.
  - rewrite <- (UrlParseProps.mem_char_lower n
                  UrlParseProps.lower_char_colon eq_refl), H. reflexivity.
  - rewrite <- (UrlParseProps.mem_char_lower n
                  UrlParseProps.lower_char_at eq_refl), H. reflexivity.
Qed.

End GithubProps.

(** For a github resource and an HTTP or HTTPS URL that the URL validator
    accepts, only the network location decides, and it must be
    [github.com] in some letter case and nothing more: whatever follows it
    (no path at all, any path, query or fragment) makes no difference,
    and a network location of another length, or with a port or user
    information in it, fails with the github message. *)
Theorem github_url_by_shape
    (validate_url validate_http_url validate_email : string -> result unit)
    (name : ResourceName.t) (scheme n rest : string) :
  ResourceType.slug (ResourceName.type name) = "url" ->
  In (ResourceName.slug name) ["github_org"; "github_repo"] ->
  In scheme ["http"; "https"] ->
  plain_netloc n = true ->
  after_netloc rest = true ->
  passes (validate_http_url (scheme ++ "://" ++ n ++ rest)) ->
  let outcome :=
    validate_external_resource_value validate_url validate_http_url
      validate_email name (scheme ++ "://" ++ n ++ rest) in
  (lower n = "github.com" -> outcome = Returns tt)
  /\ (lower n <> "github.com" -> fails_with outcome github_message)
  /\ (String.length n <> 10
      \/ mem_char ":" n = true \/ mem_char "@" n = true ->
      fails_with outcome github_message).
Proof.
  intros Ht Hs Hscheme Hn Hrest Hv outcome.
  pose proof (@GithubProps.netloc_http scheme n rest Hscheme Hn Hrest) as N.
  assert (F : lower n <> "github.com" -> fails_with outcome github_message).
  { intros Hne.
    now apply validate_github_fails with (netloc := n). }
  split; [|split; [exact F|]].
  - intros Hl. apply passes_unit. apply validate_github_passes; [assumption..|].
    split; [exact Hv | now exists n].
  - intros H. apply F. intros Hl.
    destruct (@GithubProps.github_netloc_shape n Hl) as [L [C A]].
    destruct H as [H | [H | H]].
    + contradiction.
    + rewrite C in H. discriminate H.
    + rewrite A in H. discriminate H.
Qed.

(** [https://GitHub.com] without a path passes, and
    [https://www.github.com/ietf] fails. *)
Lemma github_url_by_shape_witness :
  validate_external_resource_value accept accept accept github_org
    "https://GitHub.com" = Returns tt
  /\ fails_with (validate_external_resource_value accept accept accept
                   github_org "https://www.github.com/ietf") github_message.
Proof.
  split.
  - apply (@github_url_by_shape accept accept accept github_org
             "https" "GitHub.com" ""
             eq_refl (or_introl eq_refl) (or_intror (or_introl eq_refl))
             eq_refl eq_refl (passes_Returns tt)).
    reflexivity.
  - apply (@github_url_by_shape accept accept accept github_org
             "https" "www.github.com" "/ietf"
             eq_refl (or_introl eq_refl) (or_intror (or_introl eq_refl))
             eq_refl eq_refl (passes_Returns tt)).
    left. simpl. lia.
Defined.

(** ** The file handle after a validator *)

Lemma skip_all (s : string) : File.skip (String.length s) s = "".
Proof. induction s as [|c s IH]; [reflexivity | exact IH]. Qed.

(** A handle that was opened and read stands at the end of the content. *)
Lemma read_after_open (file : File.t) :
  File.read (File.open file)
  = (File.data file,
     {| File.name := File.name file; File._size := File._size file;
        File.data := File.data file;
        File.pos := String.length (File.data file) |}).
Proof. reflexivity. Qed.

Section FileHandleProps.

Variable get_mime_type : string -> string * string.
Variable PyQuery : string -> result (list element).

Lemma validate_mime_type_handle_spec (file : File.t)
    (valid : option (list string)) :
  validate_mime_type_handle get_mime_type file valid
  = (validate_mime_type get_mime_type file valid,
     snd (File.read (File.open file))).
Proof.
  unfold validate_mime_type_handle, validate_mime_type.
  rewrite read_after_open. cbn [snd].
  now destruct (detect_mime_type get_mime_type (File.data file)).
Qed.

Lemma validate_no_html_frame_handle_spec (file : File.t) :
  validate_no_html_frame_handle PyQuery file
  = (validate_no_html_frame PyQuery file, snd (File.read (File.open file))).
Proof. reflexivity. Qed.

(** The outcome of the reading validators is a matter of the content
    alone. *)
Lemma validate_mime_type_content (file file' : File.t)
    (valid : option (list string)) :
  File.data file = File.data file' ->
  validate_mime_type get_mime_type file valid
  = validate_mime_type get_mime_type file' valid.
Proof. intros H. rewrite !validate_mime_type_unfold. now rewrite H. Qed.

Lemma validate_no_html_frame_content (file file' : File.t) :
  File.data file = File.data file' ->
  validate_no_html_frame PyQuery file = validate_no_html_frame PyQuery file'.
Proof. intros H. rewrite !validate_no_html_frame_unfold. now rewrite H. Qed.

End FileHandleProps.

(** The validators that read the file rewind it first and leave it at its
    end.  So their outcome does not depend on where the handle stood, the
    one can follow the other (or itself) on the same handle, in any order
    and without a seek in between, with the outcome it has on a fresh
    handle; but a plain read after either of them, passed or failed,
    returns nothing. *)
Theorem reading_validators_rewind
    (get_mime_type : string -> string * string)
    (PyQuery : string -> result (list element))
    (file : File.t) (valid : option (list string)) :
  let after_mime := snd (validate_mime_type_handle get_mime_type file valid) in
  let after_frame := snd (validate_no_html_frame_handle PyQuery file) in
  fst (validate_mime_type_handle get_mime_type file valid)
  = validate_mime_type get_mime_type file valid
  /\ fst (validate_no_html_frame_handle PyQuery file)
     = validate_no_html_frame PyQuery file
  /\ after_mime = after_frame
  /\ File.data after_mime = File.data file
  /\ fst (File.read after_mime) = ""
  /\ validate_no_html_frame PyQuery after_mime
     = validate_no_html_frame PyQuery file
  /\ validate_mime_type get_mime_type after_frame valid
     = validate_mime_type get_mime_type file valid
  /\ (forall file', File.data file' = File.data file ->
        validate_mime_type get_mime_type file' valid
        = validate_mime_type get_mime_type file valid
        /\ validate_no_html_frame PyQuery file'
           = validate_no_html_frame PyQuery file).
Proof.
  intros after_mime after_frame. subst after_mime after_frame.
  rewrite validate_mime_type_handle_spec, validate_no_html_frame_handle_spec.
  cbn [fst snd]. rewrite read_after_open. cbn [snd].
  split; [reflexivity|]. split; [reflexivity|]. split; [reflexivity|].
  split; [reflexivity|]. split.
  { cbn [File.read File.pos File.data fst]. apply skip_all. }
  split; [now apply validate_no_html_frame_content|].
  split; [now apply validate_mime_type_content|].
  intros file' H. split.
  - now apply validate_mime_type_content.
  - now apply validate_no_html_frame_content.
Qed.
